(** * Agents: the coordinator / workflow core

    A shallow embedding of [core/base_agent.py] and [core/coordinator.py]:
    the message envelope, the agent registry (a Python [dict], insertion
    ordered), the [asyncio.Queue] of messages, [route_message], the dispatch
    loop of [start], capability lookup and [Workflow].

    Conventions of the embedding.
    - A Python value of type [Any] is a [PyVal]; an exception object caught by
      [except Exception] is a [PyExc].
    - A coroutine of the coordinator is a computation in the monad [M]: it
      threads the [World] (the coordinator object together with a log of the
      calls made) and either returns a value or raises.
    - An agent is a value carrying its configuration, its private attributes
      and its three overridable methods; the registry owns the agents, and a
      method call writes the agent's new private state back under the same
      key, which is what in-place mutation of the registered object amounts
      to as long as an object is registered under one name.
    - Agent methods act on the agent's own state only: no agent of the
      repository holds a reference to the coordinator. *)

From Stdlib Require Import List String Bool Arith ZArith Lia.
Import ListNotations.
Open Scope string_scope.
Open Scope list_scope.

Set Implicit Arguments.

(* ================================================================== *)
(** ** Python values *)

Module Py.

(** The part of [Any] the coordinator ever inspects: it tests one context
    entry for truth and otherwise only moves values around. *)
#[warnings="-register-all"] Inductive PyVal : Type :=
| PyNone
| PyBool (b : bool)
| PyInt (z : Z)
| PyStr (s : string)
| PyList (l : list PyVal)
| PyDict (d : list (string * PyVal)).

(** An instance of [Exception]: its class name and its message. *)
Record PyExc : Type := mkExc { exc_class : string; exc_msg : string }.

(** [bool(v)] *)
Definition truthy (v : PyVal) : bool :=
  match v with
  | PyNone => false
  | PyBool b => b
  | PyInt z => negb (Z.eqb z 0)
  | PyStr s => negb (String.eqb s "")
  | PyList l => match l with [] => false | _ :: _ => true end
  | PyDict d => match d with [] => false | _ :: _ => true end
  end.

End Py.
Import Py.

(* ================================================================== *)
(** ** Python dictionaries with string keys

    Insertion ordered; assigning to a key that is present replaces the value
    where the key already stands, assigning to a new key appends. *)

Module Dict.

Section Ops.
Variable V : Type.

Definition dict := list (string * V).

Definition empty : dict := [].

(** [d.get(k)] *)
Fixpoint get (k : string) (d : dict) : option V :=
  match d with
  | [] => None
  | (k', v) :: r => if String.eqb k k' then Some v else get k r
  end.

(** [k in d] *)
Definition contains (k : string) (d : dict) : bool :=
  match get k d with Some _ => true | None => false end.

(** [d.get(k, default)] *)
Definition get_default (k : string) (default : V) (d : dict) : V :=
  match get k d with Some v => v | None => default end.

(** [d[k] = v] *)
Fixpoint set (k : string) (v : V) (d : dict) : dict :=
  match d with
  | [] => [(k, v)]
  | (k', v') :: r =>
      if String.eqb k k' then (k, v) :: r else (k', v') :: set k v r
  end.

(** [d.keys()], [d.values()], [d.items()] in iteration order *)
Definition keys (d : dict) : list string := map fst d.
Definition values (d : dict) : list V := map snd d.
Definition items (d : dict) : list (string * V) := d.

End Ops.

Arguments empty {V}.

End Dict.

(* ================================================================== *)
(** ** core/base_agent.py *)

Record AgentConfig : Type := mkAgentConfig {
  name : string;
  description : string;
  version : string;
  capabilities : list string
}.

(** [AgentConfig(name=..., description=..., capabilities=...)] with the
    default [version]. *)
Definition AgentConfig_new (n d : string) (caps : list string) : AgentConfig :=
  {| name := n; description := d; version := "0.1.0"; capabilities := caps |}.

Inductive Result (A : Type) : Type :=
| Ok (a : A)
| Raise (e : PyExc).
Arguments Raise {A} e.

(** A [BaseAgent] instance.  [attrs] stands for the private attributes a
    subclass sets up in [_initialize]; the three function fields are the
    methods a subclass supplies ([process] and [handle_error] are abstract,
    [get_capabilities] may be overridden).  A method receives the agent's
    attributes, and returns them as it leaves them. *)
Record BaseAgent : Type := mkAgent {
  config : AgentConfig;
  attrs : PyVal;
  process_method : AgentConfig -> PyVal -> PyVal -> Result PyVal * PyVal;
  handle_error_method : AgentConfig -> PyVal -> PyExc -> Result unit * PyVal;
  get_capabilities_method : AgentConfig -> PyVal -> list string
}.

(** [BaseAgent.get_capabilities], the method subclasses inherit. *)
Definition default_get_capabilities (c : AgentConfig) (_ : PyVal) : list string :=
  capabilities c.

(** [agent.get_capabilities()] *)
Definition get_capabilities (a : BaseAgent) : list string :=
  get_capabilities_method a (config a) (attrs a).

Definition with_attrs (a : BaseAgent) (s : PyVal) : BaseAgent :=
  {| config := config a; attrs := s;
     process_method := process_method a;
     handle_error_method := handle_error_method a;
     get_capabilities_method := get_capabilities_method a |}.

(** [x in l] for a list of strings *)
Definition str_in (x : string) (l : list string) : bool :=
  existsb (String.eqb x) l.

(* ================================================================== *)
(** ** core/coordinator.py: data *)

Record Message : Type := mkMessage {
  sender : string;
  receiver : string;
  content : PyVal;
  message_type : string;
  context : Dict.dict PyVal
}.

(** [asyncio.Queue()] with no size bound: the pending items, oldest first,
    and the count of items put and not yet marked done. *)
Record Queue : Type := mkQueue {
  pending : list Message;
  unfinished_tasks : nat
}.

Definition Queue_new : Queue := {| pending := []; unfinished_tasks := 0 |}.

Record AgentCoordinator : Type := mkCoordinator {
  agents : Dict.dict BaseAgent;
  message_queue : Queue;
  _running : bool
}.

(** What an observer of a run can count: calls into agents, queue traffic,
    calls of [route_message] and lines printed. *)
Inductive Event : Type :=
| EvProcess (agent : string) (input : PyVal)
| EvHandleError (agent : string) (e : PyExc)
| EvPut (m : Message)
| EvGet (m : Message)
| EvRoute (m : Message)
| EvPrint (line : string).

Record World : Type := mkWorld {
  self : AgentCoordinator;
  trace : list Event
}.

(** [AgentCoordinator.__init__] *)
Definition AgentCoordinator_init : AgentCoordinator :=
  {| agents := Dict.empty; message_queue := Queue_new; _running := false |}.

Definition World_init : World :=
  {| self := AgentCoordinator_init; trace := [] |}.

Definition set_agents (d : Dict.dict BaseAgent) (w : World) : World :=
  {| self := {| agents := d;
                message_queue := message_queue (self w);
                _running := _running (self w) |};
     trace := trace w |}.

Definition set_queue (q : Queue) (w : World) : World :=
  {| self := {| agents := agents (self w);
                message_queue := q;
                _running := _running (self w) |};
     trace := trace w |}.

Definition set_running (b : bool) (w : World) : World :=
  {| self := {| agents := agents (self w);
                message_queue := message_queue (self w);
                _running := b |};
     trace := trace w |}.

Definition emit (ev : Event) (w : World) : World :=
  {| self := self w; trace := trace w ++ [ev] |}.

(* ================================================================== *)
(** ** The monad of coordinator code *)

Definition M (A : Type) : Type := World -> Result A * World.

Definition ret {A} (a : A) : M A := fun w => (Ok a, w).

Definition raise {A} (e : PyExc) : M A := fun w => (Raise e, w).

Definition bind {A B} (c : M A) (k : A -> M B) : M B :=
  fun w =>
    match c w with
    | (Ok a, w') => k a w'
    | (Raise e, w') => (Raise e, w')
    end.

(** [try: body  except Exception as e: handler(e)] *)
Definition try_except {A} (body : M A) (handler : PyExc -> M A) : M A :=
  fun w =>
    match body w with
    | (Ok a, w') => (Ok a, w')
    | (Raise e, w') => handler e w'
    end.

Definition modify (f : World -> World) : M unit := fun w => (Ok tt, f w).

Definition read {A} (f : World -> A) : M A := fun w => (Ok (f w), w).

Notation "x <- c ;; k" := (bind c (fun x => k))
  (at level 61, c at next level, right associativity).
Notation "c ;;; k" := (bind c (fun _ => k))
  (at level 61, right associativity).

(** [for x in xs: body(x)] *)
Fixpoint for_each {A} (xs : list A) (body : A -> M unit) : M unit :=
  match xs with
  | [] => ret tt
  | x :: r => body x ;;; for_each r body
  end.

(* ================================================================== *)
(** ** asyncio.Queue *)

(** [await queue.put(m)]: with no size bound the item is stored at once. *)
Definition Queue_put (m : Message) (q : Queue) : Queue :=
  {| pending := pending q ++ [m];
     unfinished_tasks := S (unfinished_tasks q) |}.

(** [queue.task_done()]: [None] stands for the [ValueError] raised when it
    is called more often than items were put. *)
Definition Queue_task_done (q : Queue) : option Queue :=
  match unfinished_tasks q with
  | 0 => None
  | S n => Some {| pending := pending q; unfinished_tasks := n |}
  end.

Definition ValueError_task_done : PyExc :=
  {| exc_class := "ValueError";
     exc_msg := "task_done() called too many times" |}.

Definition KeyError (k : string) : PyExc :=
  {| exc_class := "KeyError"; exc_msg := k |}.

(* ================================================================== *)
(** ** core/coordinator.py: AgentCoordinator *)

(** [self.agents[agent.config.name] = agent] *)
Definition register_agent (agent : BaseAgent) : M unit :=
  modify (fun w =>
    set_agents (Dict.set (name (config agent)) agent (agents (self w))) w).

(** [await self.message_queue.put(message)] *)
Definition send_message (message : Message) : M unit :=
  modify (fun w =>
    emit (EvPut message)
         (set_queue (Queue_put message (message_queue (self w))) w)).

(** [self.agents[key]] *)
Definition getitem_agent (key : string) : M BaseAgent :=
  fun w =>
    match Dict.get key (agents (self w)) with
    | Some a => (Ok a, w)
    | None => (Raise (KeyError key), w)
    end.

(** [await obj.process(input)] for the object [obj] registered under [key]:
    the method runs on the object's attributes and leaves them changed. *)
Definition call_process (key : string) (obj : BaseAgent) (input : PyVal)
  : M PyVal :=
  fun w =>
    let '(r, s') := process_method obj (config obj) (attrs obj) input in
    (r, emit (EvProcess key input)
          (set_agents (Dict.set key (with_attrs obj s') (agents (self w))) w)).

(** [await obj.handle_error(e)] *)
Definition call_handle_error (key : string) (obj : BaseAgent) (e : PyExc)
  : M unit :=
  fun w =>
    let '(r, s') := handle_error_method obj (config obj) (attrs obj) e in
    (r, emit (EvHandleError key e)
          (set_agents (Dict.set key (with_attrs obj s') (agents (self w))) w)).

(** [print(line)] *)
Definition print (line : string) : M unit := modify (emit (EvPrint line)).

(** The reply built on the [requires_response] path. *)
Definition response_to (message : Message) (result : PyVal) : Message :=
  {| sender := receiver message;
     receiver := sender message;
     content := result;
     message_type := "response";
     context := context message |}.

(** [route_message].  The local variable [receiver] of the source is a
    reference to the registered object; here it is the key, and the object
    is read again where the handler uses it, so that the handler sees the
    attributes as [process] left them. *)
Definition route_message (message : Message) : M unit :=
  modify (emit (EvRoute message)) ;;;
  registered <- read (fun w =>
                  Dict.contains (receiver message) (agents (self w))) ;;
  if (registered : bool) then
    obj <- getitem_agent (receiver message) ;;
    try_except
      (result <- call_process (receiver message) obj (content message) ;;
       if truthy (Dict.get_default "requires_response" (PyBool false)
                                   (context message))
       then send_message (response_to message result)
       else ret tt)
      (fun e =>
         obj' <- getitem_agent (receiver message) ;;
         call_handle_error (receiver message) obj' e)
  else
    print ("No agent found for receiver: " ++ receiver message).

(** [stop] *)
Definition stop : M unit := modify (set_running false).

(** How a run of the loop of [start] ends, or where it stands. *)
Inductive LoopStatus : Type :=
| Blocked              (* suspended in [message_queue.get()], queue empty *)
| Exited               (* the [while] test saw [_running] false *)
| Crashed (e : PyExc)  (* an exception left the coroutine *)
| OutOfFuel.           (* the iteration budget of the model is used up *)

(** The loop of [start], entered at [await self.message_queue.get()].  On a
    non-empty queue [get] returns at once, so the loop runs on without
    giving other tasks a turn until the queue is empty. *)
Fixpoint loop_from_get (fuel : nat) (w : World) : LoopStatus * World :=
  match fuel with
  | 0 => (OutOfFuel, w)
  | S fuel' =>
      match pending (message_queue (self w)) with
      | [] => (Blocked, w)
      | message :: rest =>
          let q := {| pending := rest;
                      unfinished_tasks :=
                        unfinished_tasks (message_queue (self w)) |} in
          let w1 := emit (EvGet message) (set_queue q w) in
          match route_message message w1 with
          | (Raise e, w2) => (Crashed e, w2)
          | (Ok _, w2) =>
              match Queue_task_done (message_queue (self w2)) with
              | None => (Crashed ValueError_task_done, w2)
              | Some q' =>
                  let w3 := set_queue q' w2 in
                  if _running (self w3) then loop_from_get fuel' w3
                  else (Exited, w3)
              end
          end
      end
  end.

(** [start]: at most [fuel] iterations of the loop. *)
Definition start (fuel : nat) (w : World) : LoopStatus * World :=
  let w0 := set_running true w in
  if _running (self w0) then loop_from_get fuel w0 else (Exited, w0).

(** [get_agent_capabilities]: the dict comprehension inserts one item after
    the other into a fresh dict. *)
Definition get_agent_capabilities : M (Dict.dict (list string)) :=
  read (fun w =>
    fold_left
      (fun acc item => Dict.set (fst item) (get_capabilities (snd item)) acc)
      (Dict.items (agents (self w))) Dict.empty).

(** [delegate_task] *)
Definition delegate_task (task : PyVal) (task_type : string)
  : M (option BaseAgent) :=
  read (fun w =>
    find (fun agent => str_in task_type (get_capabilities agent))
         (Dict.values (agents (self w)))).

(* ================================================================== *)
(** ** core/coordinator.py: Workflow

    The [coordinator] attribute is a reference to the coordinator of the
    world the workflow runs in. *)

Record Workflow : Type := mkWorkflow {
  steps : list Message;
  results : list PyVal
}.

(** [Workflow.__init__] *)
Definition Workflow_init : Workflow := {| steps := []; results := [] |}.

(** [add_step] *)
Definition add_step (message : Message) (wf : Workflow) : Workflow :=
  {| steps := steps wf ++ [message]; results := results wf |}.

(** [execute] *)
Definition execute (wf : Workflow) : M (list PyVal) :=
  for_each (steps wf) send_message ;;;
  ret (results wf).

(* ================================================================== *)
(** ** Sample agents and worlds *)

Module Samples.

Definition ok_handler (_ : AgentConfig) (s : PyVal) (_ : PyExc)
  : Result unit * PyVal := (Ok tt, s).

(** An agent whose [process] returns its input. *)
Definition echo_agent (n : string) (caps : list string) : BaseAgent :=
  {| config := AgentConfig_new n "echo" caps;
     attrs := PyNone;
     process_method := fun _ s x => (Ok x, s);
     handle_error_method := ok_handler;
     get_capabilities_method := default_get_capabilities |}.

Definition boom : PyExc := {| exc_class := "ValueError"; exc_msg := "boom" |}.
Definition bang : PyExc := {| exc_class := "RuntimeError"; exc_msg := "bang" |}.

(** An agent whose [process] raises and whose [handle_error] returns. *)
Definition failing_agent (n : string) : BaseAgent :=
  {| config := AgentConfig_new n "fails" [];
     attrs := PyNone;
     process_method := fun _ s _ => (Raise boom, PyInt 1);
     handle_error_method := ok_handler;
     get_capabilities_method := default_get_capabilities |}.

(** An agent whose [process] raises and whose [handle_error] raises too. *)
Definition broken_agent (n : string) : BaseAgent :=
  {| config := AgentConfig_new n "fails twice" [];
     attrs := PyNone;
     process_method := fun _ s _ => (Raise boom, s);
     handle_error_method := fun _ s _ => (Raise bang, s);
     get_capabilities_method := default_get_capabilities |}.

Definition msg (s r : string) (c : PyVal) (ctx : Dict.dict PyVal) : Message :=
  {| sender := s; receiver := r; content := c;
     message_type := "process"; context := ctx |}.

Definition wants_reply : Dict.dict PyVal := [("requires_response", PyBool true)].
Definition no_reply : Dict.dict PyVal := [("requires_response", PyBool false)].

(** The world after registering the agents of [l] on a new coordinator. *)
Definition world_of (l : list BaseAgent) : World :=
  snd (for_each l register_agent World_init).

End Samples.

(* ================================================================== *)
(** ** Reading a trace *)

Definition puts_of (t : list Event) : list Message :=
  flat_map (fun ev => match ev with EvPut m => [m] | _ => [] end) t.

Definition gets_of (t : list Event) : list Message :=
  flat_map (fun ev => match ev with EvGet m => [m] | _ => [] end) t.

Definition routes_of (t : list Event) : list Message :=
  flat_map (fun ev => match ev with EvRoute m => [m] | _ => [] end) t.

Definition handled_of (t : list Event) : list (string * PyExc) :=
  flat_map (fun ev => match ev with EvHandleError a e => [(a, e)] | _ => [] end) t.

(* ================================================================== *)
(** ** Describing a run of registrations

    These say, without reference to the dictionary operations, what a
    sequence of [register_agent] calls leaves behind. *)

(** [register_agent] called for each agent of [l], in order. *)
Definition register_all (l : list BaseAgent) : M unit :=
  for_each l register_agent.

Definition agent_name (a : BaseAgent) : string := name (config a).

(** The agent registered last under the name [n], if any. *)
Fixpoint latest (n : string) (l : list BaseAgent) : option BaseAgent :=
  match l with
  | [] => None
  | a :: r =>
      match latest n r with
      | Some b => Some b
      | None => if String.eqb n (agent_name a) then Some a else None
      end
  end.

(** The names of [l] in the order in which each is met first, leaving out
    those in [seen]. *)
Fixpoint first_seen_from (seen : list string) (l : list string)
  : list string :=
  match l with
  | [] => []
  | x :: r =>
      if str_in x seen then first_seen_from seen r
      else x :: first_seen_from (x :: seen) r
  end.

Definition first_seen (l : list string) : list string :=
  first_seen_from [] l.

(** One agent per name: the names in the order of their first
    registration, each with the agent registered last under it. *)
Definition registry_order (l : list BaseAgent) : list BaseAgent :=
  flat_map (fun n => match latest n l with Some a => [a] | None => [] end)
           (first_seen (map agent_name l)).

(** [send_message] called for each message of [ms], in order. *)
Definition send_all (ms : list Message) : M unit :=
  for_each ms send_message.

(** The workflow after [add_step] was called for each message of [l]. *)
Definition workflow_of (l : list Message) : Workflow :=
  fold_left (fun wf m => add_step m wf) l Workflow_init.

(* ================================================================== *)
(** ** Intermediate states, named for the proofs *)

(** The dictionary a run of registrations builds from [d]. *)
Definition registered (l : list BaseAgent) (d : Dict.dict BaseAgent)
  : Dict.dict BaseAgent :=
  fold_left (fun d a => Dict.set (agent_name a) a d) l d.

(** The dictionary [get_agent_capabilities] builds. *)
Definition capability_map (d : Dict.dict BaseAgent) (acc : Dict.dict (list string))
  : Dict.dict (list string) :=
  fold_left (fun acc item => Dict.set (fst item) (get_capabilities (snd item)) acc)
            d acc.

(** The queue never holds more items than are counted as unfinished. *)
Definition queue_ok (w : World) : Prop :=
  List.length (pending (message_queue (self w)))
    <= unfinished_tasks (message_queue (self w)).

(** The worlds [route_message] passes through when the receiver is
    registered. *)
Definition after_process (w : World) (message : Message) (obj : BaseAgent)
    (s' : PyVal) : World :=
  emit (EvProcess (receiver message) (content message))
    (set_agents
       (Dict.set (receiver message) (with_attrs obj s') (agents (self w)))
       (emit (EvRoute message) w)).

Definition after_reply (w : World) (message : Message) (result : PyVal)
  : World :=
  emit (EvPut (response_to message result))
    (set_queue
       (Queue_put (response_to message result) (message_queue (self w))) w).

Definition after_handle_error (w : World) (message : Message)
    (obj : BaseAgent) (e : PyExc) (s' : PyVal) : World :=
  emit (EvHandleError (receiver message) e)
    (set_agents
       (Dict.set (receiver message) (with_attrs obj s') (agents (self w))) w).

(** A list of strings as a Python value. *)
Definition py_strs (l : list string) : PyVal := PyList (map PyStr l).

(** The row the drivers show for the agent registered under a name. *)
Definition agent_row (item : string * BaseAgent) : Dict.dict PyVal :=
  [("name", PyStr (fst item));
   ("capabilities", py_strs (get_capabilities (snd item)));
   ("description", PyStr (description (config (snd item))))].

(* ================================================================== *)
(** ** The drivers: cli/commands.py and web/api.py *)

(** [[f(x) for x in xs]] where [f] may raise. *)
Fixpoint map_m {A B} (f : A -> M B) (xs : list A) : M (list B) :=
  match xs with
  | [] => ret []
  | x :: r => y <- f x ;; ys <- map_m f r ;; ret (y :: ys)
  end.

(** The rows built by [list_agents] of the command line and returned by
    [get_agents] of the web front end: one dictionary for each item of
    [get_agent_capabilities()], the description being read from
    [coordinator.agents[name]]. *)
Definition agents_data : M (list (Dict.dict PyVal)) :=
  caps <- get_agent_capabilities ;;
  map_m (fun item =>
           a <- getitem_agent (fst item) ;;
           ret [("name", PyStr (fst item));
                ("capabilities", py_strs (snd item));
                ("description", PyStr (description (config a)))])
        (Dict.items caps).

(** [execute_workflow] inside [run] of the command line, once the workflow
    is built from [msgs].  [asyncio.create_task(coordinator.start())] only
    schedules the loop; [await workflow.execute()] does not suspend, since
    [put] on an unbounded queue never does; [coordinator.stop()] follows;
    the loop gets its first turn at [await coordinator_task]. *)
Definition cli_execute_workflow (msgs : list Message) (fuel : nat)
    (w : World) : LoopStatus * World :=
  let w1 := snd (execute (workflow_of msgs) w) in
  let w2 := snd (stop w1) in
  start fuel w2.

(* ================================================================== *)
(** ** Vocabulary for the further properties *)

(** The world when [get] has handed [m] to the loop, and the world when
    [task_done] has counted one task off. *)
Definition after_get (m : Message) (rest : list Message) (w : World) : World :=
  emit (EvGet m)
    (set_queue {| pending := rest;
                  unfinished_tasks := unfinished_tasks (message_queue (self w)) |}
               w).

Definition after_task_done (w : World) : World :=
  set_queue {| pending := pending (message_queue (self w));
               unfinished_tasks := pred (unfinished_tasks (message_queue (self w))) |}
            w.

(** A message the bus cannot answer for ever: its sender or its receiver is
    not a registered name. *)
Definition one_way (w : World) (m : Message) : Prop :=
  Dict.contains (sender m) (agents (self w)) = false \/
  Dict.contains (receiver m) (agents (self w)) = false.

(** How many iterations a pending message can still cost when it is
    one-way: two if its receiver is registered (its delivery and that of the
    reply), one otherwise. *)
Definition hops (w : World) (m : Message) : nat :=
  if Dict.contains (receiver m) (agents (self w)) then 2 else 1.

Definition hops_left (w : World) : nat :=
  list_sum (map (hops w) (pending (message_queue (self w)))).

(** [process] of the agent returns, whatever its attributes and input. *)
Definition process_returns (a : BaseAgent) : Prop :=
  forall st x, exists v, fst (process_method a (config a) st x) = Ok v.

(** [handle_error] of the agent returns, whatever its attributes and the
    error. *)
Definition handler_returns (a : BaseAgent) : Prop :=
  forall st e, fst (handle_error_method a (config a) st e) = Ok tt.

(** Every registered agent has a [handle_error] that returns. *)
Definition handlers_return (w : World) : Prop :=
  forall k a, Dict.get k (agents (self w)) = Some a -> handler_returns a.

(** As many unfinished tasks as pending items: the state of a queue whose
    every [get] was followed by [task_done]. *)
Definition balanced (w : World) : Prop :=
  unfinished_tasks (message_queue (self w))
    = List.length (pending (message_queue (self w))).

Definition with_message_type (ty : string) (m : Message) : Message :=
  {| sender := sender m; receiver := receiver m; content := content m;
     message_type := ty; context := context m |}.

(** [message.context.get("requires_response", False)], as a truth value *)
Definition requires_response (m : Message) : bool :=
  truthy (Dict.get_default "requires_response" (PyBool false) (context m)).

(** The calls of [process] recorded in a trace. *)
Definition processed_of (t : list Event) : list (string * PyVal) :=
  flat_map (fun ev => match ev with EvProcess a x => [(a, x)] | _ => [] end) t.

(* ================================================================== *)
(** ** Reading a trace: lemmas *)

Lemma puts_of_app t1 t2 : puts_of (t1 ++ t2) = puts_of t1 ++ puts_of t2.
Proof. apply flat_map_app. Qed.

Lemma gets_of_app t1 t2 : gets_of (t1 ++ t2) = gets_of t1 ++ gets_of t2.
Proof. apply flat_map_app. Qed.

Lemma routes_of_app t1 t2 : routes_of (t1 ++ t2) = routes_of t1 ++ routes_of t2.
Proof. apply flat_map_app. Qed.

Lemma handled_of_app t1 t2 :
  handled_of (t1 ++ t2) = handled_of t1 ++ handled_of t2.
Proof. apply flat_map_app. Qed.

(* ================================================================== *)
(** ** Dictionaries: lemmas *)

Module DictFacts.
Import Dict.

Section Facts.
Variable V : Type.
Implicit Types (d : dict V) (k : string) (v : V).

Lemma get_set_same k v d : get k (set k v d) = Some v.
Proof.
  induction d as [|[k' v'] r IH]; simpl.
  - now rewrite String.eqb_refl.
  - destruct (String.eqb k k') eqn:E; simpl.
    + now rewrite String.eqb_refl.
    + now rewrite E.
Qed.

Lemma get_set_other k k' v d :
  String.eqb k k' = false -> get k (set k' v d) = get k d.
Proof.
  intros Hne. induction d as [|[k0 v0] r IH]; simpl.
  - now rewrite Hne.
  - destruct (String.eqb k' k0) eqn:E; simpl.
    + apply String.eqb_eq in E. subst k0. now rewrite Hne.
    + now rewrite IH.
Qed.

Lemma get_set k k' v d :
  get k (set k' v d) = if String.eqb k k' then Some v else get k d.
Proof.
  destruct (String.eqb k k') eqn:E.
  - apply String.eqb_eq in E. subst. apply get_set_same.
  - now apply get_set_other.
Qed.

Lemma contains_in_keys k d : contains k d = str_in k (keys d).
Proof.
  unfold contains, str_in, keys.
  induction d as [|[k' v'] r IH]; simpl; auto.
  destruct (String.eqb k k'); simpl; auto.
Qed.

Lemma keys_set k v d :
  keys (set k v d) = if contains k d then keys d else keys d ++ [k].
Proof.
  unfold contains, keys.
  induction d as [|[k' v'] r IH]; simpl; auto.
  destruct (String.eqb k k') eqn:E; simpl.
  - apply String.eqb_eq in E. now subst.
  - rewrite IH. now destruct (get k r).
Qed.

Lemma str_in_In k (l : list string) : str_in k l = true <-> In k l.
Proof.
  unfold str_in. rewrite existsb_exists. split.
  - intros [x [Hin Heq]]. apply String.eqb_eq in Heq. now subst.
  - intros Hin. exists k. split; auto. apply String.eqb_refl.
Qed.

Lemma NoDup_keys_set k v d : NoDup (keys d) -> NoDup (keys (set k v d)).
Proof.
  intros Hnd. rewrite keys_set.
  destruct (contains k d) eqn:E; auto.
  rewrite contains_in_keys in E.
  apply NoDup_app; auto.
  - constructor; [intros []|constructor].
  - intros x Hx [Hk|[]]. subst x.
    apply str_in_In in Hx. congruence.
Qed.

End Facts.
End DictFacts.

(* ================================================================== *)
(** ** route_message *)

Ltac run_route :=
  unfold route_message, bind, read, modify, try_except, getitem_agent,
    call_process, call_handle_error, send_message, print, ret,
    Dict.contains, Dict.get_default;
  simpl.

(** C3. A message whose receiver is not a key of the registry is dropped:
    [route_message] returns normally, the coordinator (registry, queue and
    running flag) is left as it was, nothing is put on the queue, and the
    only thing that happens is the "No agent found" line. *)
Theorem route_message_unknown_receiver (w : World) (message : Message) :
  Dict.contains (receiver message) (agents (self w)) = false ->
  exists w',
    route_message message w = (Ok tt, w') /\
    self w' = self w /\
    trace w' = trace w ++
      [EvRoute message;
       EvPrint ("No agent found for receiver: " ++ receiver message)] /\
    puts_of (trace w') = puts_of (trace w).
Proof.
  intros Hnot. unfold Dict.contains in Hnot.
  eexists. run_route.
  destruct (Dict.get (receiver message) (agents (self w))) eqn:E;
    [discriminate|].
  split; [reflexivity|]. simpl. split.
  - now destruct w as [[? ? ?] ?].
  - split.
    + now rewrite <- app_assoc.
    + rewrite <- app_assoc, puts_of_app. simpl. now rewrite app_nil_r.
Qed.

Lemma route_message_unknown_receiver_witness :
  exists w',
    route_message (Samples.msg "t" "nobody" (PyStr "hi") Samples.wants_reply)
                  (Samples.world_of [Samples.echo_agent "echo" ["echo"]])
    = (Ok tt, w') /\
    self w' = self (Samples.world_of [Samples.echo_agent "echo" ["echo"]]).
Proof.
  destruct (@route_message_unknown_receiver
              (Samples.world_of [Samples.echo_agent "echo" ["echo"]])
              (Samples.msg "t" "nobody" (PyStr "hi") Samples.wants_reply))
    as [w' [H1 [H2 _]]].
  - reflexivity.
  - exists w'. split; assumption.
Defined.

Lemma route_message_registered (w : World) (message : Message)
    (obj : BaseAgent) :
  Dict.get (receiver message) (agents (self w)) = Some obj ->
  route_message message w =
    match process_method obj (config obj) (attrs obj) (content message) with
    | (Ok result, s1) =>
        if truthy (Dict.get_default "requires_response" (PyBool false)
                                    (context message))
        then (Ok tt, after_reply (after_process w message obj s1)
                                 message result)
        else (Ok tt, after_process w message obj s1)
    | (Raise e, s1) =>
        match handle_error_method obj (config obj) s1 e with
        | (r, s2) =>
            (r, after_handle_error (after_process w message obj s1) message
                                   (with_attrs obj s1) e s2)
        end
    end.
Proof.
  intros Hget. run_route. repeat (rewrite Hget; simpl).
  destruct (process_method obj (config obj) (attrs obj) (content message))
    as [[result|e] s1]; simpl.
  - destruct (truthy match Dict.get "requires_response" (context message) with
                     | Some v => v | None => PyBool false end); reflexivity.
  - rewrite DictFacts.get_set_same. simpl.
    destruct (handle_error_method obj (config obj) s1 e) as [r s2].
    reflexivity.
Qed.

(** C1. The receiver is registered and its [process] returns [result].
    If the context maps "requires_response" to [True], exactly one message
    is put on the queue: the reply from the receiver to the sender, carrying
    [result], typed "response", with the context of the request.  If the
    entry is [False] or missing, nothing is put on the queue. *)
Theorem route_message_reply
    (w : World) (message : Message) (obj : BaseAgent) (result s' : PyVal) :
  Dict.get (receiver message) (agents (self w)) = Some obj ->
  process_method obj (config obj) (attrs obj) (content message)
    = (Ok result, s') ->
  let reply := {| sender := receiver message;
                  receiver := sender message;
                  content := result;
                  message_type := "response";
                  context := context message |} in
  exists w',
    route_message message w = (Ok tt, w') /\
    (Dict.get "requires_response" (context message) = Some (PyBool true) ->
       pending (message_queue (self w'))
         = pending (message_queue (self w)) ++ [reply] /\
       puts_of (trace w') = puts_of (trace w) ++ [reply]) /\
    (Dict.get "requires_response" (context message) = Some (PyBool false) \/
     Dict.get "requires_response" (context message) = None ->
       message_queue (self w') = message_queue (self w) /\
       puts_of (trace w') = puts_of (trace w)).
Proof.
  intros Hget Hproc reply.
  rewrite (route_message_registered _ _ Hget), Hproc.
  unfold Dict.get_default.
  destruct (Dict.get "requires_response" (context message)) as [v|] eqn:Hctx.
  - destruct (truthy v) eqn:Ht; eexists; (split; [reflexivity|]); simpl.
    + split.
      * intros _. split; [reflexivity|].
        rewrite !puts_of_app. simpl. now rewrite !app_nil_r.
      * intros [H|H]; [injection H as ->|]; discriminate.
    + split.
      * intros H. injection H as ->. discriminate.
      * intros _. split; [reflexivity|].
        rewrite !puts_of_app. simpl. now rewrite !app_nil_r.
  - eexists. split; [reflexivity|]. simpl. split.
    + discriminate.
    + intros _. split; [reflexivity|].
      rewrite !puts_of_app. simpl. now rewrite !app_nil_r.
Qed.

Lemma route_message_reply_witness :
  exists w',
    route_message (Samples.msg "t" "echo" (PyStr "hi") Samples.wants_reply)
                  (Samples.world_of [Samples.echo_agent "echo" ["echo"]])
    = (Ok tt, w') /\
    pending (message_queue (self w'))
    = [ {| sender := "echo"; receiver := "t"; content := PyStr "hi";
           message_type := "response"; context := Samples.wants_reply |} ].
Proof.
  destruct (@route_message_reply
              (Samples.world_of [Samples.echo_agent "echo" ["echo"]])
              (Samples.msg "t" "echo" (PyStr "hi") Samples.wants_reply)
              (Samples.echo_agent "echo" ["echo"]) (PyStr "hi") PyNone)
    as [w' [H1 [H2 _]]].
  - reflexivity.
  - reflexivity.
  - exists w'. split; [exact H1|].
    destruct (H2 eq_refl) as [Hq _]. exact Hq.
Defined.

(** C2 (as amended).  The receiver is registered and its [process] raises
    [e].  Then [handle_error] of that agent is called exactly once, with
    [e]; nothing is put on the queue, whatever the context says; and
    [route_message] ends the way that [handle_error] call ends: it returns
    normally when the handler returns normally. *)
Theorem route_message_process_raises
    (w : World) (message : Message) (obj : BaseAgent) (e : PyExc)
    (s1 : PyVal) :
  Dict.get (receiver message) (agents (self w)) = Some obj ->
  process_method obj (config obj) (attrs obj) (content message)
    = (Raise e, s1) ->
  exists w',
    route_message message w
      = (fst (handle_error_method obj (config obj) s1 e), w') /\
    handled_of (trace w') = handled_of (trace w) ++ [(receiver message, e)] /\
    puts_of (trace w') = puts_of (trace w) /\
    message_queue (self w') = message_queue (self w).
Proof.
  intros Hget Hproc.
  rewrite (route_message_registered _ _ Hget), Hproc.
  destruct (handle_error_method obj (config obj) s1 e) as [r s2].
  eexists. split; [reflexivity|]. simpl.
  rewrite !handled_of_app, !puts_of_app. simpl.
  rewrite !app_nil_r. repeat split; reflexivity.
Qed.

Lemma route_message_process_raises_witness :
  exists w',
    route_message (Samples.msg "t" "f" PyNone Samples.wants_reply)
                  (Samples.world_of [Samples.failing_agent "f"])
    = (Ok tt, w') /\
    handled_of (trace w') = [("f", Samples.boom)] /\
    puts_of (trace w') = [].
Proof.
  destruct (@route_message_process_raises
              (Samples.world_of [Samples.failing_agent "f"])
              (Samples.msg "t" "f" PyNone Samples.wants_reply)
              (Samples.failing_agent "f") Samples.boom (PyInt 1))
    as [w' [H1 [H2 [H3 _]]]].
  - reflexivity.
  - reflexivity.
  - exists w'. repeat split; assumption.
Defined.

(** C2 as it is worded fails where [handle_error] raises: the receiver is
    registered, its [process] raises, and [route_message] does not return
    normally. *)
Lemma route_message_returns_normally_counterexample :
  Dict.get "b" (agents (self (Samples.world_of [Samples.broken_agent "b"])))
    = Some (Samples.broken_agent "b") /\
  fst (process_method (Samples.broken_agent "b")
         (config (Samples.broken_agent "b")) PyNone PyNone)
    = Raise Samples.boom /\
  fst (route_message (Samples.msg "t" "b" PyNone Samples.wants_reply)
         (Samples.world_of [Samples.broken_agent "b"]))
    = Raise Samples.bang.
Proof. repeat split; reflexivity. Qed.

(* ================================================================== *)
(** ** The dispatch loop *)

(** C9. When [process] raises and the [handle_error] call that follows
    raises [e'] as well, [e'] leaves [route_message], and it leaves the loop
    of [start] too: the loop ends there, with the rest of the queue not
    taken out. *)
Theorem handler_failure_ends_loop
    (w : World) (message : Message) (rest : list Message) (obj : BaseAgent)
    (e e' : PyExc) (s1 s2 : PyVal) (fuel : nat) :
  pending (message_queue (self w)) = message :: rest ->
  Dict.get (receiver message) (agents (self w)) = Some obj ->
  process_method obj (config obj) (attrs obj) (content message)
    = (Raise e, s1) ->
  handle_error_method obj (config obj) s1 e = (Raise e', s2) ->
  (exists w1, route_message message w = (Raise e', w1)) /\
  (exists w2,
     start (S fuel) w = (Crashed e', w2) /\
     pending (message_queue (self w2)) = rest /\
     routes_of (trace w2) = routes_of (trace w) ++ [message]).
Proof.
  intros Hq Hget Hproc Hherr. split.
  - rewrite (route_message_registered _ _ Hget), Hproc, Hherr.
    eexists. reflexivity.
  - unfold start. simpl. rewrite Hq.
    erewrite route_message_registered by (simpl; exact Hget).
    rewrite Hproc, Hherr.
    eexists. split; [reflexivity|]. simpl. split; [reflexivity|].
    rewrite !routes_of_app. simpl. now rewrite !app_nil_r.
Qed.

Lemma handler_failure_ends_loop_witness :
  exists w2,
    start 5 (snd (send_message
                    (Samples.msg "t" "b" PyNone Samples.no_reply)
                    (Samples.world_of [Samples.broken_agent "b"])))
    = (Crashed Samples.bang, w2).
Proof.
  destruct (@handler_failure_ends_loop
              (snd (send_message
                      (Samples.msg "t" "b" PyNone Samples.no_reply)
                      (Samples.world_of [Samples.broken_agent "b"])))
              (Samples.msg "t" "b" PyNone Samples.no_reply) []
              (Samples.broken_agent "b") Samples.boom Samples.bang
              PyNone PyNone 4)
    as [_ [w2 [H _]]]; try reflexivity.
  exists w2. exact H.
Defined.

(* ================================================================== *)
(** ** Workflow *)

Lemma for_each_send (ms : list Message) (w : World) :
  exists w',
    for_each ms send_message w = (Ok tt, w') /\
    pending (message_queue (self w'))
      = pending (message_queue (self w)) ++ ms /\
    unfinished_tasks (message_queue (self w'))
      = unfinished_tasks (message_queue (self w)) + List.length ms /\
    trace w' = trace w ++ map EvPut ms /\
    agents (self w') = agents (self w) /\
    _running (self w') = _running (self w).
Proof.
  revert w. induction ms as [|m ms IH]; intros w; simpl.
  - exists w. unfold ret. rewrite !app_nil_r, Nat.add_0_r. repeat split.
  - destruct (IH (emit (EvPut m)
                   (set_queue (Queue_put m (message_queue (self w))) w)))
      as [w' [H1 [H2 [H3 [H4 [H5 H6]]]]]].
    exists w'. unfold bind, send_message at 1, modify.
    rewrite H1, H2, H3, H4, H5, H6. simpl.
    rewrite <- !app_assoc. simpl. repeat split. lia.
Qed.

Lemma steps_workflow_of (l : list Message) :
  steps (workflow_of l) = l /\ results (workflow_of l) = [].
Proof.
  unfold workflow_of.
  assert (G : forall wf,
             steps (fold_left (fun wf m => add_step m wf) l wf)
               = steps wf ++ l /\
             results (fold_left (fun wf m => add_step m wf) l wf)
               = results wf).
  { induction l as [|m l IH]; intros wf; simpl.
    - now rewrite app_nil_r.
    - destruct (IH (add_step m wf)) as [H1 H2]. rewrite H1, H2. simpl.
      now rewrite <- app_assoc. }
  destruct (G Workflow_init) as [H1 H2]. now rewrite H1, H2.
Qed.

(** C8. [execute] calls [send_message] once for each step, in the order of
    the step list, and does nothing else: the queue receives the steps in
    order, no message is routed and no agent is called.  It returns the
    [results] list, and for a workflow built with [add_step] that list is
    empty.  Three steps give three [send_message] calls. *)
Theorem execute_sends_each_step_once (wf : Workflow) (l : list Message)
    (w : World) :
  (exists w',
     execute wf w = (Ok (results wf), w') /\
     trace w' = trace w ++ map EvPut (steps wf) /\
     pending (message_queue (self w'))
       = pending (message_queue (self w)) ++ steps wf /\
     agents (self w') = agents (self w) /\
     _running (self w') = _running (self w)) /\
  (exists w',
     execute (workflow_of l) w = (Ok [], w') /\
     puts_of (trace w') = puts_of (trace w) ++ l /\
     routes_of (trace w') = routes_of (trace w)) /\
  (forall m1 m2 m3,
     puts_of (trace (snd (execute (workflow_of [m1; m2; m3]) World_init)))
       = [m1; m2; m3]).
Proof.
  split; [|split].
  - unfold execute, bind.
    destruct (for_each_send (steps wf) w) as [w' [H1 [H2 [_ [H4 [H5 H6]]]]]].
    rewrite H1. exists w'. unfold ret. repeat split; assumption.
  - unfold execute, bind.
    destruct (steps_workflow_of l) as [Hs Hr]. rewrite Hs, Hr.
    destruct (for_each_send l w) as [w' [H1 [_ [_ [H4 _]]]]].
    rewrite H1. exists w'. unfold ret. split; [reflexivity|].
    rewrite H4, puts_of_app, routes_of_app.
    assert (P : forall ms, puts_of (map EvPut ms) = ms
                           /\ routes_of (map EvPut ms) = []).
    { induction ms as [|m ms [IH1 IH2]]; simpl; auto.
      now rewrite IH1, IH2. }
    destruct (P l) as [P1 P2]. now rewrite P1, P2, app_nil_r.
  - intros m1 m2 m3. reflexivity.
Qed.

(* ================================================================== *)
(** ** Capability lookup *)

(** C10. [delegate_task] does not look at its [task] argument: any two
    tasks give the same answer for the same [task_type]; the call returns
    normally and leaves the world as it found it. *)
Theorem delegate_task_ignores_task (w : World) (t1 t2 : PyVal)
    (task_type : string) :
  delegate_task t1 task_type w = delegate_task t2 task_type w /\
  snd (delegate_task t1 task_type w) = w /\
  exists r, fst (delegate_task t1 task_type w) = Ok r.
Proof.
  unfold delegate_task, read. simpl. repeat split. eexists. reflexivity.
Qed.

(* ================================================================== *)
(** ** The registry after a run of registrations *)

Module RegistryFacts.
Import Dict DictFacts.

Lemma register_all_run (l : list BaseAgent) (w : World) :
  register_all l w = (Ok tt, set_agents (registered l (agents (self w))) w).
Proof.
  unfold register_all. revert w.
  induction l as [|a l IH]; intros w; simpl.
  - unfold ret. now destruct w as [[? ? ?] ?].
  - unfold bind, register_agent at 1, modify. now rewrite IH.
Qed.

Lemma get_registered (n : string) (l : list BaseAgent) (d : dict BaseAgent) :
  get n (registered l d)
  = match latest n l with Some b => Some b | None => get n d end.
Proof.
  revert d. induction l as [|a l IH]; intros d; simpl; auto.
  rewrite IH. destruct (latest n l); auto.
  rewrite get_set. now destruct (String.eqb n (agent_name a)).
Qed.

Lemma first_seen_from_ext (s1 s2 l : list string) :
  (forall x, str_in x s1 = str_in x s2) ->
  first_seen_from s1 l = first_seen_from s2 l.
Proof.
  revert s1 s2. induction l as [|x l IH]; intros s1 s2 Hext; simpl; auto.
  rewrite <- (Hext x). destruct (str_in x s1).
  - now apply IH.
  - f_equal. apply IH. intros y. unfold str_in in *. simpl.
    now rewrite (Hext y).
Qed.

Lemma keys_registered (l : list BaseAgent) (d : dict BaseAgent) :
  keys (registered l d)
  = keys d ++ first_seen_from (keys d) (map agent_name l).
Proof.
  revert d. induction l as [|a l IH]; intros d; simpl.
  - now rewrite app_nil_r.
  - rewrite IH, keys_set, <- contains_in_keys.
    destruct (contains (agent_name a) d) eqn:E; auto.
    rewrite <- app_assoc. simpl. do 2 f_equal.
    apply first_seen_from_ext. intros x. unfold str_in.
    rewrite existsb_app. simpl. rewrite orb_false_r. apply orb_comm.
Qed.

Lemma NoDup_keys_registered (l : list BaseAgent) (d : dict BaseAgent) :
  NoDup (keys d) -> NoDup (keys (registered l d)).
Proof.
  revert d. induction l as [|a l IH]; intros d Hd; simpl; auto.
  apply IH. now apply NoDup_keys_set.
Qed.

Lemma get_not_in_keys V (k : string) (d : dict V) :
  ~ In k (keys d) -> get k d = None.
Proof.
  induction d as [|[k' v] r IH]; simpl; auto.
  intros Hnot. destruct (String.eqb k k') eqn:E.
  - apply String.eqb_eq in E. subst. tauto.
  - apply IH. tauto.
Qed.

Lemma flat_map_agree A B (f g : A -> list B) (l : list A) :
  (forall x, In x l -> f x = g x) -> flat_map f l = flat_map g l.
Proof.
  induction l as [|x l IH]; simpl; auto.
  intros H. rewrite (H x), IH; auto.
Qed.

(** With distinct keys, walking the keys and looking each one up gives
    the values in iteration order. *)
Lemma values_by_keys V (d : dict V) :
  NoDup (keys d) ->
  flat_map (fun n => match get n d with Some a => [a] | None => [] end)
           (keys d)
  = values d.
Proof.
  induction d as [|[k v] r IH]; simpl; auto.
  intros Hnd. inversion Hnd as [|? ? Hnot Hr]; subst.
  rewrite String.eqb_refl. simpl. f_equal.
  rewrite <- (IH Hr). apply flat_map_agree.
  intros n Hn. destruct (String.eqb n k) eqn:E; auto.
  apply String.eqb_eq in E. subst. contradiction.
Qed.

Lemma values_registered (l : list BaseAgent) :
  values (registered l empty) = registry_order l.
Proof.
  assert (Hnd : NoDup (keys (registered l empty)))
    by (apply NoDup_keys_registered; constructor).
  rewrite <- (@values_by_keys _ _ Hnd), keys_registered. simpl.
  unfold registry_order, first_seen. apply flat_map_agree.
  intros n _. rewrite get_registered. simpl. now destruct (latest n l).
Qed.

Lemma set_fresh V (k : string) (v : V) (d : dict V) :
  ~ In k (keys d) -> set k v d = d ++ [(k, v)].
Proof.
  induction d as [|[k' v'] r IH]; simpl; auto.
  intros Hnot. destruct (String.eqb k k') eqn:E.
  - apply String.eqb_eq in E. subst. tauto.
  - f_equal. apply IH. tauto.
Qed.

Lemma registered_distinct (l : list BaseAgent) (d : dict BaseAgent) :
  NoDup (keys d ++ map agent_name l) ->
  registered l d = d ++ map (fun a => (agent_name a, a)) l.
Proof.
  revert d. induction l as [|a l IH]; intros d Hnd; simpl.
  - now rewrite app_nil_r.
  - assert (Hfresh : ~ In (agent_name a) (keys d)).
    { intros Hin. apply NoDup_remove_2 in Hnd. apply Hnd.
      apply in_or_app. now left. }
    rewrite (@set_fresh _ _ a _ Hfresh), IH.
    + now rewrite <- app_assoc.
    + unfold keys. rewrite map_app. simpl. rewrite <- app_assoc. exact Hnd.
Qed.

Lemma registry_order_distinct (l : list BaseAgent) :
  NoDup (map agent_name l) -> registry_order l = l.
Proof.
  intros Hnd. rewrite <- values_registered, registered_distinct by exact Hnd.
  unfold values. simpl. rewrite map_map. simpl. apply map_id.
Qed.

Lemma NoDup_keys_capability_map d acc :
  NoDup (keys acc) -> NoDup (keys (capability_map d acc)).
Proof.
  revert acc. induction d as [|[k a] r IH]; intros acc Hacc; simpl; auto.
  apply IH. now apply NoDup_keys_set.
Qed.

Lemma get_capability_map n d acc :
  NoDup (keys d) ->
  get n (capability_map d acc)
  = match get n d with
    | Some a => Some (get_capabilities a)
    | None => get n acc
    end.
Proof.
  revert acc. induction d as [|[k a] r IH]; intros acc Hnd; simpl; auto.
  inversion Hnd as [|? ? Hnot Hr]; subst.
  rewrite (IH _ Hr), get_set.
  destruct (String.eqb n k) eqn:E.
  - apply String.eqb_eq in E. subst.
    now rewrite (@get_not_in_keys _ _ _ Hnot).
  - reflexivity.
Qed.

End RegistryFacts.

(** C5. After any run of [register_agent] calls on a new coordinator: no
    call raises; the registry has no name twice; looking a name up gives
    the agent registered last under it; and [get_agent_capabilities] has no
    name twice either and gives, for each name, the capabilities of that
    last agent.  For two agents in particular, the second is found under
    its name, and the registry has one key if the names agree. *)
Theorem register_agent_last_write_wins (l : list BaseAgent) :
  (exists w,
     register_all l World_init = (Ok tt, w) /\
     NoDup (Dict.keys (agents (self w))) /\
     (forall n, Dict.get n (agents (self w)) = latest n l) /\
     exists caps,
       get_agent_capabilities w = (Ok caps, w) /\
       NoDup (Dict.keys caps) /\
       (forall n, Dict.get n caps = option_map get_capabilities (latest n l)))
  /\
  (forall a1 a2,
     let w := snd (register_all [a1; a2] World_init) in
     Dict.get (agent_name a2) (agents (self w)) = Some a2 /\
     Dict.keys (agents (self w))
       = if String.eqb (agent_name a2) (agent_name a1)
         then [agent_name a2] else [agent_name a1; agent_name a2]).
Proof.
  split.
  - rewrite RegistryFacts.register_all_run. eexists. split; [reflexivity|].
    simpl.
    assert (Hnd : NoDup (Dict.keys (registered l Dict.empty)))
      by (apply RegistryFacts.NoDup_keys_registered; constructor).
    split; [exact Hnd|]. split.
    + intros n. rewrite RegistryFacts.get_registered. simpl.
      now destruct (latest n l).
    + eexists. split; [reflexivity|]. split.
      * apply RegistryFacts.NoDup_keys_capability_map. constructor.
      * intros n.
        change (Dict.get n (capability_map
                              (registered l Dict.empty)
                              Dict.empty)
                = option_map get_capabilities (latest n l)).
        rewrite (@RegistryFacts.get_capability_map n _ Dict.empty Hnd),
          RegistryFacts.get_registered. simpl.
        now destruct (latest n l).
  - intros a1 a2. simpl. fold (agent_name a1). fold (agent_name a2).
    destruct (String.eqb (agent_name a2) (agent_name a1)) eqn:E; simpl.
    + now rewrite String.eqb_refl.
    + now rewrite E, String.eqb_refl.
Qed.

(** C7 (as amended).  After any run of registrations, [delegate_task]
    returns the first agent with the capability in the iteration order of
    the registry: names in the order of their first registration, each
    standing for the agent registered last under it; [None] if there is
    none.  When the registered names are distinct this is the first agent
    with the capability in registration order. *)
Theorem delegate_task_first_in_registry_order
    (l : list BaseAgent) (task : PyVal) (task_type : string) :
  exists w,
    register_all l World_init = (Ok tt, w) /\
    delegate_task task task_type w
      = (Ok (find (fun a => str_in task_type (get_capabilities a))
                  (registry_order l)), w) /\
    (NoDup (map agent_name l) ->
     delegate_task task task_type w
       = (Ok (find (fun a => str_in task_type (get_capabilities a)) l), w)).
Proof.
  rewrite RegistryFacts.register_all_run. eexists. split; [reflexivity|].
  unfold delegate_task, read. simpl.
  rewrite RegistryFacts.values_registered. split; [reflexivity|].
  intros Hnd. now rewrite (@RegistryFacts.registry_order_distinct l Hnd).
Qed.

Lemma delegate_task_first_in_registry_order_witness :
  fst (delegate_task PyNone "echo"
         (Samples.world_of [Samples.echo_agent "up" ["uptime"];
                            Samples.echo_agent "echo" ["echo"]]))
    = Ok (Some (Samples.echo_agent "echo" ["echo"])) /\
  fst (delegate_task PyNone "nonexistent"
         (Samples.world_of [Samples.echo_agent "up" ["uptime"];
                            Samples.echo_agent "echo" ["echo"]]))
    = Ok None.
Proof.
  split.
  - destruct (delegate_task_first_in_registry_order
                [Samples.echo_agent "up" ["uptime"];
                 Samples.echo_agent "echo" ["echo"]] PyNone "echo")
      as [w [H1 [_ H3]]].
    unfold Samples.world_of.
    fold (register_all [Samples.echo_agent "up" ["uptime"];
                        Samples.echo_agent "echo" ["echo"]]).
    rewrite H1. cbn [snd]. rewrite H3; [reflexivity|].
    repeat constructor; simpl; intuition discriminate.
  - reflexivity.
Defined.

(** C7 as it is worded fails when a name is registered twice.  Register
    ["x"] without the capability, then ["y"] with it, then ["x"] again, now
    with it: both ["y"] and the second ["x"] are in the registry, ["y"] was
    registered first, and [delegate_task] returns ["x"]. *)
Lemma delegate_task_registration_order_counterexample :
  let l := [Samples.echo_agent "x" ["a"];
            Samples.echo_agent "y" ["t"];
            Samples.echo_agent "x" ["t"]] in
  option_map agent_name
    (find (fun a => str_in "t" (get_capabilities a)) l) = Some "y" /\
  option_map agent_name (Dict.get "y" (agents (self (Samples.world_of l))))
    = Some "y" /\
  fst (delegate_task PyNone "t" (Samples.world_of l))
    = Ok (Some (Samples.echo_agent "x" ["t"])).
Proof. repeat split; reflexivity. Qed.

(* ================================================================== *)
(** ** The dispatch loop: order of delivery *)

Module LoopFacts.

(** What one call of [route_message] can do to the world: it logs itself
    and then some events, none of them a [get] or a further
    [route_message]; what it puts goes to the back of the queue. *)
Lemma route_message_effect (message : Message) (w : World) :
  exists t,
    trace (snd (route_message message w))
      = trace w ++ EvRoute message :: t /\
    gets_of t = [] /\
    routes_of t = [] /\
    pending (message_queue (self (snd (route_message message w))))
      = pending (message_queue (self w)) ++ puts_of t /\
    unfinished_tasks (message_queue (self (snd (route_message message w))))
      = unfinished_tasks (message_queue (self w))
        + List.length (puts_of t) /\
    _running (self (snd (route_message message w))) = _running (self w).
Proof.
  destruct (Dict.get (receiver message) (agents (self w))) as [obj|] eqn:Hget.
  - rewrite (route_message_registered _ _ Hget).
    destruct (process_method obj (config obj) (attrs obj) (content message))
      as [[result|e] s1].
    + destruct (truthy _); simpl; eexists;
        (split; [rewrite <- ?app_assoc; simpl; reflexivity|]); simpl;
        rewrite ?app_nil_r, ?Nat.add_0_r; repeat split; lia.
    + destruct (handle_error_method obj (config obj) s1 e) as [r s2].
      simpl; eexists;
        (split; [rewrite <- ?app_assoc; simpl; reflexivity|]); simpl;
        rewrite ?app_nil_r, ?Nat.add_0_r; repeat split; lia.
  - run_route. rewrite Hget. simpl. eexists.
    split; [rewrite <- app_assoc; simpl; reflexivity|]. simpl.
    rewrite ?app_nil_r, ?Nat.add_0_r. repeat split; lia.
Qed.

(** A run of the loop.  Every message taken out is routed at once; what
    was taken out, followed by what is still pending, is what was pending
    at the start followed by what was put meanwhile.  The run stops for
    lack of fuel only after [fuel] messages, and suspends only on an
    empty queue. *)
Lemma loop_from_get_run (fuel : nat) (w : World) :
  queue_ok w ->
  _running (self w) = true ->
  exists t,
    trace (snd (loop_from_get fuel w)) = trace w ++ t /\
    routes_of t = gets_of t /\
    gets_of t ++ pending (message_queue (self (snd (loop_from_get fuel w))))
      = pending (message_queue (self w)) ++ puts_of t /\
    (fst (loop_from_get fuel w) = OutOfFuel ->
       List.length (gets_of t) = fuel) /\
    (fst (loop_from_get fuel w) = Blocked ->
       pending (message_queue (self (snd (loop_from_get fuel w)))) = []) /\
    fst (loop_from_get fuel w) <> Exited.
Proof.
  revert w. induction fuel as [|fuel IH]; intros w Hok Hrun; simpl.
  - exists []. simpl. rewrite !app_nil_r. repeat split; congruence.
  - destruct (pending (message_queue (self w))) as [|m rest] eqn:Hq.
    + exists []. simpl. rewrite !app_nil_r, Hq.
      repeat split; congruence.
    + set (w1 := emit (EvGet m)
                   (set_queue {| pending := rest;
                                 unfinished_tasks :=
                                   unfinished_tasks (message_queue (self w)) |}
                              w)).
      destruct (route_message_effect m w1)
        as [t1 [Ht [Hg [Hr [Hp [Hu Hrun1]]]]]].
      destruct (route_message m w1) as [[[]|e] w2] eqn:Hroute;
        simpl in Ht, Hp, Hu, Hrun1.
      * unfold Queue_task_done. rewrite Hu.
        unfold queue_ok in Hok. rewrite Hq in Hok. simpl in Hok.
        destruct (unfinished_tasks (message_queue (self w))) as [|u] eqn:Hun;
          [lia|]. simpl.
        rewrite Hrun1, Hrun.
        match goal with
        | |- context [loop_from_get fuel ?w3] =>
            destruct (IH w3) as [t [Kt [Kr [Kc [Ko [Kb Ke]]]]]]
        end.
        { unfold queue_ok. simpl. rewrite Hp, length_app. lia. }
        { simpl. now rewrite Hrun1. }
        simpl in Kt, Kc.
        exists (EvGet m :: EvRoute m :: t1 ++ t). split.
        { rewrite Kt, Ht. rewrite <- !app_assoc. reflexivity. }
        simpl. rewrite routes_of_app, gets_of_app, puts_of_app, Hg, Hr, Kr.
        simpl. split; [reflexivity|]. split.
        { rewrite Kc, Hp. now rewrite <- app_assoc. }
        split; [intros H; now rewrite (Ko H)|]. split; assumption.
      * exists (EvGet m :: EvRoute m :: t1). simpl. split.
        { rewrite Ht. rewrite <- app_assoc. reflexivity. }
        rewrite Hg, Hr. split; [reflexivity|]. split.
        { now rewrite Hp. }
        repeat split; congruence.
Qed.

Lemma firstn_app_l A (n : nat) (l1 l2 : list A) :
  n <= List.length l1 -> firstn n (l1 ++ l2) = firstn n l1.
Proof.
  intros H. rewrite firstn_app.
  replace (n - List.length l1) with 0 by lia.
  simpl. apply app_nil_r.
Qed.

Lemma prefixes_agree A (g p ms later : list A) :
  g ++ p = ms ++ later ->
  firstn (List.length ms) g = firstn (List.length g) ms.
Proof.
  intros H. destruct (Nat.le_ge_cases (List.length g) (List.length ms)).
  - rewrite (firstn_all2 g) by assumption.
    rewrite <- (@firstn_app_l _ _ ms later) by assumption.
    rewrite <- H. rewrite firstn_app_l by lia.
    symmetry. now apply firstn_all2.
  - rewrite (firstn_all2 ms) by assumption.
    rewrite <- (@firstn_app_l _ _ g p) by assumption.
    rewrite H. rewrite firstn_app_l by lia.
    now apply firstn_all2.
Qed.

End LoopFacts.

(** C6. Messages sent while nothing is taken out are delivered in the
    order sent.  Start with an empty queue, call [send_message] for each
    message of [ms], then let the loop of [start] run: every message the
    loop takes out is routed at once, the messages taken out agree with
    [ms] position by position, and unless the loop crashes, a budget of
    [length ms] iterations delivers all of [ms], in order, before anything
    else. *)
Theorem dispatch_is_fifo (w : World) (ms : list Message) (fuel : nat) :
  pending (message_queue (self w)) = [] ->
  let w1 := snd (send_all ms w) in
  let st := fst (start fuel w1) in
  let w2 := snd (start fuel w1) in
  fst (send_all ms w) = Ok tt /\
  pending (message_queue (self w1)) = ms /\
  exists t,
    trace w2 = trace w1 ++ t /\
    routes_of t = gets_of t /\
    firstn (List.length ms) (gets_of t)
      = firstn (List.length (gets_of t)) ms /\
    ((forall e, st <> Crashed e) ->
     List.length ms <= fuel ->
     firstn (List.length ms) (gets_of t) = ms).
Proof.
  intros Hempty. unfold send_all.
  destruct (for_each_send ms w) as [w1 [H1 [H2 [H3 _]]]].
  rewrite H1. cbn [fst snd]. rewrite Hempty in H2. simpl in H2.
  split; [reflexivity|]. split; [exact H2|].
  unfold start. simpl.
  destruct (@LoopFacts.loop_from_get_run fuel (set_running true w1))
    as [t [Kt [Kr [Kc [Ko [Kb Ke]]]]]].
  { unfold queue_ok. simpl. rewrite H2, H3. lia. }
  { reflexivity. }
  simpl in Kt, Kc. rewrite H2 in Kc.
  exists t. split; [exact Kt|]. split; [exact Kr|]. split.
  - eapply LoopFacts.prefixes_agree. exact Kc.
  - intros Hlive Hfuel.
    destruct (fst (loop_from_get fuel (set_running true w1))) eqn:Hst.
    + rewrite (Kb eq_refl), app_nil_r in Kc. rewrite Kc.
      rewrite LoopFacts.firstn_app_l by lia. now apply firstn_all2.
    + contradiction.
    + exfalso. now apply (Hlive e).
    + specialize (Ko eq_refl).
      rewrite <- (@LoopFacts.firstn_app_l _ _ (gets_of t)
                    (pending (message_queue
                       (self (snd (loop_from_get fuel
                                     (set_running true w1)))))))
        by lia.
      rewrite Kc, LoopFacts.firstn_app_l by lia. now apply firstn_all2.
Qed.

Lemma dispatch_is_fifo_witness :
  let ms := [Samples.msg "t" "echo" (PyInt 1) Samples.wants_reply;
             Samples.msg "t" "nobody" (PyInt 2) Samples.no_reply;
             Samples.msg "t" "echo" (PyInt 3) Samples.no_reply] in
  let w := Samples.world_of [Samples.echo_agent "echo" ["echo"]] in
  exists t,
    trace (snd (start 3 (snd (send_all ms w))))
      = trace (snd (send_all ms w)) ++ t /\
    firstn 3 (gets_of t) = ms.
Proof.
  intros ms w.
  destruct (@dispatch_is_fifo w ms 3 eq_refl) as [_ [_ [t [H1 [_ [_ H4]]]]]].
  exists t. split; [exact H1|]. apply H4.
  - intros e H. vm_compute in H. discriminate.
  - simpl. lia.
Defined.

(** C4 on the code.  The loop is idle: it ran until the queue was empty and
    is suspended in [get].  [stop] is called.  Resuming the loop finds it
    still suspended in [get]: it has not ended.  When a message is sent
    afterwards, the loop takes it out and routes it, and only then sees the
    flag and ends. *)
Lemma stop_while_idle_routes_next_message :
  let m := Samples.msg "t" "echo" (PyStr "late") Samples.no_reply in
  let idle := start 5 (Samples.world_of [Samples.echo_agent "echo" ["echo"]]) in
  let stopped := snd (stop (snd idle)) in
  let sent := snd (send_message m stopped) in
  fst idle = Blocked /\
  pending (message_queue (self (snd idle))) = [] /\
  _running (self stopped) = false /\
  fst (loop_from_get 5 stopped) = Blocked /\
  fst (loop_from_get 5 sent) = Exited /\
  routes_of (trace (snd (loop_from_get 5 sent))) = [m].
Proof. repeat split; reflexivity. Qed.

(* ================================================================== *)
(** ** What one call of route_message can do *)

Module RouteFacts.

Lemma registry_after_route (w : World) (message : Message) :
  let w' := snd (route_message message w) in
  Dict.keys (agents (self w')) = Dict.keys (agents (self w)) /\
  (forall k, String.eqb k (receiver message) = false ->
     Dict.get k (agents (self w')) = Dict.get k (agents (self w))) /\
  (forall a, Dict.get (receiver message) (agents (self w)) = Some a ->
     exists st,
       Dict.get (receiver message) (agents (self w')) = Some (with_attrs a st)).
Proof.
  assert (K : forall (d : Dict.dict BaseAgent) k a v,
             Dict.get k d = Some a -> Dict.keys (Dict.set k v d) = Dict.keys d).
  { intros d k a v H. rewrite DictFacts.keys_set. unfold Dict.contains.
    now rewrite H. }
  destruct (Dict.get (receiver message) (agents (self w))) as [obj|] eqn:Hget.
  - rewrite (route_message_registered _ _ Hget).
    destruct (process_method obj (config obj) (attrs obj) (content message))
      as [[result|e] s1].
    + destruct (truthy _); simpl; (split; [now apply (K _ _ obj)|]);
        (split; [intros k Hk; now apply DictFacts.get_set_other|]);
        intros a Ha; injection Ha as <-; exists s1;
        apply DictFacts.get_set_same.
    + destruct (handle_error_method obj (config obj) s1 e) as [r s2]. simpl.
      split.
      * rewrite (K _ _ (with_attrs obj s1));
          [now apply (K _ _ obj) | apply DictFacts.get_set_same].
      * split.
        -- intros k Hk. now rewrite !DictFacts.get_set_other.
        -- intros a Ha. injection Ha as <-. exists s2.
           apply DictFacts.get_set_same.
  - run_route. rewrite Hget. simpl. repeat split. discriminate.
Qed.


(** What is put: nothing, or the one reply, and then only on request and
    for a registered receiver. *)
Lemma queue_after_route (w : World) (message : Message) :
  let w' := snd (route_message message w) in
  exists l,
    pending (message_queue (self w'))
      = pending (message_queue (self w)) ++ l /\
    unfinished_tasks (message_queue (self w'))
      = unfinished_tasks (message_queue (self w)) + List.length l /\
    _running (self w') = _running (self w) /\
    (l = [] \/
     exists result,
       l = [response_to message result] /\
       Dict.contains (receiver message) (agents (self w)) = true).
Proof.
  destruct (Dict.get (receiver message) (agents (self w))) as [obj|] eqn:Hget.
  - assert (Hc : Dict.contains (receiver message) (agents (self w)) = true)
      by (unfold Dict.contains; now rewrite Hget).
    rewrite (route_message_registered _ _ Hget).
    destruct (process_method obj (config obj) (attrs obj) (content message))
      as [[result|e] s1].
    + destruct (truthy _); simpl.
      * exists [response_to message result]. simpl.
        repeat split; try lia. right. now exists result.
      * exists []. rewrite app_nil_r. simpl. repeat split; try lia. now left.
    + destruct (handle_error_method obj (config obj) s1 e) as [r s2]. simpl.
      exists []. rewrite app_nil_r. simpl. repeat split; try lia. now left.
  - run_route. rewrite Hget. simpl.
    exists []. rewrite app_nil_r. simpl. repeat split; try lia. now left.
Qed.

Lemma handler_returns_with_attrs (a : BaseAgent) (st : PyVal) :
  handler_returns a -> handler_returns (with_attrs a st).
Proof. intros H. exact H. Qed.

Lemma handlers_return_after_route (w : World) (message : Message) :
  handlers_return w -> handlers_return (snd (route_message message w)).
Proof.
  intros H k a' Hget'.
  destruct (registry_after_route w message) as [_ [Hother Hrecv]].
  destruct (String.eqb k (receiver message)) eqn:E.
  - apply String.eqb_eq in E. subst k.
    destruct (Dict.get (receiver message) (agents (self w))) as [a|] eqn:Hget.
    + destruct (Hrecv a eq_refl) as [st Hst].
      rewrite Hst in Hget'. injection Hget' as <-.
      apply handler_returns_with_attrs. exact (H _ _ Hget).
    + exfalso. revert Hget'. run_route. rewrite Hget. simpl.
      rewrite Hget. discriminate.
  - rewrite (Hother k E) in Hget'. exact (H _ _ Hget').
Qed.

Lemma route_returns_when_handlers_return (w : World) (message : Message) :
  handlers_return w -> fst (route_message message w) = Ok tt.
Proof.
  intros H.
  destruct (Dict.get (receiver message) (agents (self w))) as [obj|] eqn:Hget.
  - rewrite (route_message_registered _ _ Hget).
    destruct (process_method obj (config obj) (attrs obj) (content message))
      as [[result|e] s1].
    + now destruct (truthy _).
    + pose proof (H _ _ Hget s1 e) as Hh.
      destruct (handle_error_method obj (config obj) s1 e) as [r s2].
      exact Hh.
  - run_route. now rewrite Hget.
Qed.

Lemma contains_after_route (w : World) (message : Message) (k : string) :
  Dict.contains k (agents (self (snd (route_message message w))))
  = Dict.contains k (agents (self w)).
Proof.
  rewrite !DictFacts.contains_in_keys.
  destruct (registry_after_route w message) as [Hk _]. now rewrite Hk.
Qed.

End RouteFacts.

(* ================================================================== *)
(** ** Further properties of route_message *)

(** X1. With the receiver registered and [process] returning, what decides
    the reply is the truth value of the "requires_response" entry: any true
    value (a non-zero number, a non-empty string or list) makes exactly one
    reply, any false value ([None], [0], an empty string) or no entry makes
    none. *)
Theorem reply_follows_truth_value
    (w : World) (message : Message) (obj : BaseAgent) (result s' : PyVal) :
  Dict.get (receiver message) (agents (self w)) = Some obj ->
  process_method obj (config obj) (attrs obj) (content message)
    = (Ok result, s') ->
  fst (route_message message w) = Ok tt /\
  puts_of (trace (snd (route_message message w)))
    = puts_of (trace w)
      ++ (if requires_response message
          then [{| sender := receiver message;
                   receiver := sender message;
                   content := result;
                   message_type := "response";
                   context := context message |}]
          else []) /\
  pending (message_queue (self (snd (route_message message w))))
    = pending (message_queue (self w))
      ++ (if requires_response message
          then [{| sender := receiver message;
                   receiver := sender message;
                   content := result;
                   message_type := "response";
                   context := context message |}]
          else []).
Proof.
  intros Hget Hproc.
  rewrite (route_message_registered _ _ Hget), Hproc.
  unfold requires_response.
  destruct (truthy (Dict.get_default "requires_response" (PyBool false)
                                     (context message))); simpl;
    rewrite !puts_of_app; simpl; rewrite ?app_nil_r; repeat split.
Qed.

Lemma reply_follows_truth_value_witness :
  puts_of (trace (snd (route_message
     (Samples.msg "t" "echo" (PyStr "hi") [("requires_response", PyStr "no")])
     (Samples.world_of [Samples.echo_agent "echo" ["echo"]]))))
  = [{| sender := "echo"; receiver := "t"; content := PyStr "hi";
        message_type := "response";
        context := [("requires_response", PyStr "no")] |}].
Proof.
  destruct (@reply_follows_truth_value
              (Samples.world_of [Samples.echo_agent "echo" ["echo"]])
              (Samples.msg "t" "echo" (PyStr "hi")
                           [("requires_response", PyStr "no")])
              (Samples.echo_agent "echo" ["echo"]) (PyStr "hi") PyNone
              eq_refl eq_refl) as [_ [H _]].
  exact H.
Defined.


(** X3. The coordinator does not interpret [message_type]: two messages
    that differ in nothing else are routed alike.  The call ends the same
    way, the coordinator is left in the same state, the same agent calls
    are made and the same messages are put; a message typed "response"
    is handled like any other. *)
Theorem route_message_ignores_message_type
    (w : World) (message : Message) (ty : string) :
  let r1 := route_message message w in
  let r2 := route_message (with_message_type ty message) w in
  fst r1 = fst r2 /\
  self (snd r1) = self (snd r2) /\
  puts_of (trace (snd r1)) = puts_of (trace (snd r2)) /\
  processed_of (trace (snd r1)) = processed_of (trace (snd r2)) /\
  handled_of (trace (snd r1)) = handled_of (trace (snd r2)).
Proof.
  assert (P : forall t1 t2, processed_of (t1 ++ t2)
                            = processed_of t1 ++ processed_of t2)
    by (intros; apply flat_map_app).
  destruct (Dict.get (receiver message) (agents (self w))) as [obj|] eqn:Hget.
  - simpl.
    rewrite (route_message_registered _ _ Hget).
    rewrite (@route_message_registered w (with_message_type ty message) obj)
      by exact Hget.
    simpl.
    destruct (process_method obj (config obj) (attrs obj) (content message))
      as [[result|e] s1].
    + destruct (truthy _); simpl;
        rewrite !puts_of_app, !P, !handled_of_app; repeat split.
    + destruct (handle_error_method obj (config obj) s1 e) as [r s2]. simpl.
      rewrite !puts_of_app, !P, !handled_of_app. repeat split.
  - run_route. rewrite Hget. simpl.
    rewrite !puts_of_app, !P, !handled_of_app. repeat split.
Qed.

(* ================================================================== *)
(** ** One iteration of the loop *)

Module LoopSteps.

(** With a message pending and the task count in order, an iteration is:
    take the message out, route it, count the task off, test the flag. *)
Lemma loop_step (fuel : nat) (w : World) (m : Message) (rest : list Message) :
  pending (message_queue (self w)) = m :: rest ->
  queue_ok w ->
  loop_from_get (S fuel) w =
    match route_message m (after_get m rest w) with
    | (Raise e, w2) => (Crashed e, w2)
    | (Ok _, w2) =>
        if _running (self w2) then loop_from_get fuel (after_task_done w2)
        else (Exited, after_task_done w2)
    end.
Proof.
  intros Hq Hok. simpl. rewrite Hq. fold (after_get m rest w).
  destruct (RouteFacts.queue_after_route (after_get m rest w) m)
    as [l [_ [Hu _]]].
  destruct (route_message m (after_get m rest w)) as [[[]|e] w2];
    [|reflexivity].
  simpl in Hu. unfold Queue_task_done.
  unfold queue_ok in Hok. rewrite Hq in Hok. simpl in Hok.
  destruct (unfinished_tasks (message_queue (self w2))) as [|u] eqn:Hu2;
    [lia|].
  unfold after_task_done. rewrite Hu2. reflexivity.
Qed.

Lemma queue_ok_after_iteration (w : World) (m : Message) (rest : list Message) :
  pending (message_queue (self w)) = m :: rest ->
  queue_ok w ->
  queue_ok (after_task_done (snd (route_message m (after_get m rest w)))).
Proof.
  intros Hq Hok. unfold queue_ok in *. rewrite Hq in Hok. simpl in Hok.
  destruct (RouteFacts.queue_after_route (after_get m rest w) m)
    as [l [Hp [Hu _]]].
  simpl in Hp, Hu. simpl. rewrite Hp, Hu, length_app. lia.
Qed.

Lemma running_after_route (w : World) (m : Message) (rest : list Message) :
  _running (self (snd (route_message m (after_get m rest w))))
  = _running (self w).
Proof.
  destruct (RouteFacts.queue_after_route (after_get m rest w) m)
    as [l [_ [_ [Hr _]]]].
  exact Hr.
Qed.

End LoopSteps.

(* ================================================================== *)
(** ** Further properties of the dispatch loop *)

(** X4. A run of the loop neither loses nor repeats nor reorders a message,
    however it ends: every message taken out is routed at once, and the
    messages taken out, followed by those still pending, are the messages
    pending at the start followed by those put during the run.  A reply
    therefore waits behind everything sent before it. *)
Theorem dispatch_conserves_messages (fuel : nat) (w : World) :
  exists t,
    trace (snd (start fuel w)) = trace w ++ t /\
    routes_of t = gets_of t /\
    gets_of t ++ pending (message_queue (self (snd (start fuel w))))
      = pending (message_queue (self w)) ++ puts_of t.
Proof.
  unfold start. simpl.
  change (trace w) with (trace (set_running true w)).
  change (pending (message_queue (self w)))
    with (pending (message_queue (self (set_running true w)))).
  generalize (set_running true w). clear w.
  induction fuel as [|fuel IH]; intros w; simpl.
  - exists []. simpl. now rewrite !app_nil_r.
  - destruct (pending (message_queue (self w))) as [|m rest] eqn:Hq.
    + exists []. simpl. now rewrite !app_nil_r, Hq.
    + fold (after_get m rest w).
      destruct (LoopFacts.route_message_effect m (after_get m rest w))
        as [t1 [Ht [Hg [Hr [Hp _]]]]].
      destruct (route_message m (after_get m rest w)) as [[[]|e] w2].
      * simpl in Ht, Hp.
        assert (Hhere : exists t,
                  trace w2 = trace w ++ t /\
                  routes_of t = gets_of t /\
                  gets_of t ++ pending (message_queue (self w2))
                    = (m :: rest) ++ puts_of t).
        { exists (EvGet m :: EvRoute m :: t1). split.
          - rewrite Ht, <- app_assoc. reflexivity.
          - simpl. rewrite Hg, Hr, Hp. split; reflexivity. }
        destruct (Queue_task_done (message_queue (self w2))) as [q'|] eqn:Hd;
          [|exact Hhere].
        assert (Hq' : pending q' = pending (message_queue (self w2))).
        { unfold Queue_task_done in Hd.
          destruct (unfinished_tasks (message_queue (self w2)));
            [discriminate|]. now injection Hd as <-. }
        destruct Hhere as [t [Kt [Kr Kc]]]. simpl.
        destruct (_running (self w2)).
        -- destruct (IH (set_queue q' w2)) as [t' [Lt [Lr Lc]]].
           simpl in Lt, Lc. rewrite Hq' in Lc.
           exists (t ++ t'). split; [now rewrite Lt, Kt, app_assoc|].
           rewrite routes_of_app, gets_of_app, puts_of_app, Kr, Lr.
           split; [reflexivity|].
           rewrite <- app_assoc, Lc, app_assoc, Kc. now rewrite <- app_assoc.
        -- exists t. simpl. rewrite Hq'. repeat split; assumption.
      * simpl in Ht, Hp. exists (EvGet m :: EvRoute m :: t1). simpl. split.
        -- rewrite Ht, <- app_assoc. reflexivity.
        -- rewrite Hg, Hr, Hp. split; reflexivity.
Qed.

Module LoopInvariants.

Lemma survives (fuel : nat) :
  forall w : World,
    queue_ok w ->
    handlers_return w ->
    _running (self w) = true ->
    fst (loop_from_get fuel w) = Blocked \/
    fst (loop_from_get fuel w) = OutOfFuel.
Proof.
  induction fuel as [|fuel IH]; intros w Hok Hh Hrun.
  - now right.
  - destruct (pending (message_queue (self w))) as [|m rest] eqn:Hq.
    + left. simpl. now rewrite Hq.
    + rewrite (@LoopSteps.loop_step fuel w m rest Hq Hok).
      assert (Hh1 : handlers_return (after_get m rest w)) by exact Hh.
      pose proof (@RouteFacts.route_returns_when_handlers_return
                    (after_get m rest w) m Hh1) as Hr.
      pose proof (@RouteFacts.handlers_return_after_route
                    (after_get m rest w) m Hh1) as Hh2.
      pose proof (@LoopSteps.queue_ok_after_iteration w m rest Hq Hok) as Hok2.
      pose proof (LoopSteps.running_after_route w m rest) as Hrun2.
      destruct (route_message m (after_get m rest w)) as [[[]|e] w2];
        [|discriminate].
      simpl in Hh2, Hok2, Hrun2. rewrite Hrun2, Hrun.
      apply IH; [exact Hok2 | exact Hh2 | simpl; now rewrite Hrun2].
Qed.

Lemma contains_after_iteration (w : World) (m : Message)
    (rest : list Message) (k : string) :
  Dict.contains k
    (agents (self (after_task_done
                     (snd (route_message m (after_get m rest w))))))
  = Dict.contains k (agents (self w)).
Proof.
  change (Dict.contains k
            (agents (self (snd (route_message m (after_get m rest w)))))
          = Dict.contains k (agents (self (after_get m rest w)))).
  apply RouteFacts.contains_after_route.
Qed.

Lemma hops_left_bound (w : World) :
  hops_left w <= 2 * List.length (pending (message_queue (self w))).
Proof.
  unfold hops_left.
  induction (pending (message_queue (self w))) as [|m l IH]; simpl; auto.
  unfold hops at 1. destruct (Dict.contains _ _); lia.
Qed.

(** One-way traffic runs dry: every iteration uses up a hop. *)
Lemma runs_dry (fuel : nat) :
  forall w : World,
    queue_ok w ->
    (forall m, In m (pending (message_queue (self w))) -> one_way w m) ->
    hops_left w < fuel ->
    fst (loop_from_get fuel w) <> OutOfFuel.
Proof.
  induction fuel as [|fuel IH]; intros w Hok Hone Hlt; [lia|].
  destruct (pending (message_queue (self w))) as [|m rest] eqn:Hq.
  - simpl. rewrite Hq. discriminate.
  - rewrite (@LoopSteps.loop_step fuel w m rest Hq Hok).
    pose proof (@LoopSteps.queue_ok_after_iteration w m rest Hq Hok) as Hok2.
    pose proof (contains_after_iteration w m rest) as Hc.
    destruct (RouteFacts.queue_after_route (after_get m rest w) m)
      as [l [Hp [_ [_ Hl]]]].
    destruct (route_message m (after_get m rest w)) as [[[]|e] w2];
      [|discriminate].
    simpl in Hok2, Hc, Hp, Hl.
    destruct (_running (self w2)); [|discriminate].
    assert (Hm : one_way w m) by (apply Hone; now left).
    assert (Hh : forall x, hops (after_task_done w2) x = hops w x).
    { intros x. unfold hops. now rewrite Hc. }
    apply IH; [exact Hok2| |].
    + intros x Hx. simpl in Hx. rewrite Hp in Hx.
      assert (Hx' : one_way w x).
      { apply in_app_or in Hx. destruct Hx as [Hx|Hx].
        - apply Hone. now right.
        - destruct Hl as [->|[result [-> Hreg]]]; [contradiction|].
          destruct Hx as [<-|[]]. right. simpl.
          destruct Hm as [Hm|Hm]; [exact Hm|congruence]. }
      destruct Hx' as [Hx'|Hx']; [left|right];
        unfold after_task_done; simpl; rewrite <- Hx';
        apply (Hc (sender x)) || apply (Hc (receiver x)).
    + unfold hops_left in Hlt |- *. rewrite Hq in Hlt. simpl in Hlt.
      simpl. rewrite Hp, map_app, list_sum_app.
      rewrite (map_ext _ _ Hh), (map_ext _ _ Hh).
      destruct Hl as [->|[result [-> Hreg]]]; simpl.
      * unfold hops in Hlt at 1. destruct (Dict.contains _ _); lia.
      * unfold hops in Hlt at 1. rewrite Hreg in Hlt.
        destruct Hm as [Hm|Hm]; [|congruence].
        unfold hops at 2. simpl. rewrite Hm. lia.
Qed.

End LoopInvariants.



Module BounceFacts.

Lemma process_returns_with_attrs (a : BaseAgent) (st : PyVal) :
  process_returns a -> process_returns (with_attrs a st).
Proof. intros H. exact H. Qed.

Lemma processed_of_app t1 t2 :
  processed_of (t1 ++ t2) = processed_of t1 ++ processed_of t2.
Proof. apply flat_map_app. Qed.

(** The state in which one request stands between two registered agents
    whose [process] returns. *)
Lemma bounce (fuel : nat) :
  forall (w : World) (m : Message) (a b : BaseAgent),
    pending (message_queue (self w)) = [m] ->
    queue_ok w ->
    _running (self w) = true ->
    Dict.get (sender m) (agents (self w)) = Some a ->
    Dict.get (receiver m) (agents (self w)) = Some b ->
    process_returns a ->
    process_returns b ->
    requires_response m = true ->
    fst (loop_from_get fuel w) = OutOfFuel /\
    exists t,
      trace (snd (loop_from_get fuel w)) = trace w ++ t /\
      List.length (routes_of t) = fuel /\
      List.length (processed_of t) = fuel.
Proof.
  induction fuel as [|fuel IH]; intros w m a b Hq Hok Hrun Ha Hb Pa Pb Hreq.
  - simpl. split; [reflexivity|]. exists []. now rewrite app_nil_r.
  - rewrite (@LoopSteps.loop_step fuel w m [] Hq Hok).
    assert (Hb1 : Dict.get (receiver m) (agents (self (after_get m [] w)))
                  = Some b) by exact Hb.
    rewrite (route_message_registered _ _ Hb1).
    destruct (Pb (attrs b) (content m)) as [v Hv].
    destruct (process_method b (config b) (attrs b) (content m))
      as [r s1] eqn:Hp.
    simpl in Hv. subst r.
    unfold requires_response in Hreq. rewrite Hreq.
    cbn [_running self after_reply after_process emit set_queue set_agents
         after_get]. rewrite Hrun.
    match goal with
    | |- context [loop_from_get fuel ?x] => set (w3 := x)
    end.
    assert (Ha3 : Dict.get (sender (response_to m v)) (agents (self w3))
                  = Some (with_attrs b s1)).
    { simpl. apply DictFacts.get_set_same. }
    assert (Hb3 : exists a', Dict.get (receiver (response_to m v))
                                      (agents (self w3)) = Some a'
                             /\ process_returns a').
    { simpl. rewrite DictFacts.get_set.
      destruct (String.eqb (sender m) (receiver m)).
      - exists (with_attrs b s1). split; [reflexivity|exact Pb].
      - exists a. split; [exact Ha|exact Pa]. }
    destruct Hb3 as [a' [Hb3 Pa']].
    destruct (IH w3 (response_to m v) (with_attrs b s1) a') as [Hst [t [Ht [Hr Hpr]]]];
      try assumption; try reflexivity.
    + unfold queue_ok, w3. simpl.
      unfold queue_ok in Hok. rewrite Hq in Hok. simpl in Hok. lia.
    + split; [exact Hst|].
      exists (EvGet m :: EvRoute m :: EvProcess (receiver m) (content m)
                :: EvPut (response_to m v) :: t).
      split.
      * rewrite Ht. unfold w3. simpl. rewrite <- !app_assoc. reflexivity.
      * simpl. now rewrite Hr, Hpr.
Qed.

End BounceFacts.

(** X6. A request for a response between two registered agents never
    settles.  The reply carries the context of the request, so it asks for
    a response in turn; if both agents' [process] returns, the loop, given
    one such message, is still busy after any number of iterations, each
    iteration routing one message and calling [process] once. *)
Theorem answered_request_bounces_forever
    (w : World) (m : Message) (a b : BaseAgent) (fuel : nat) :
  pending (message_queue (self w)) = [m] ->
  queue_ok w ->
  Dict.get (sender m) (agents (self w)) = Some a ->
  Dict.get (receiver m) (agents (self w)) = Some b ->
  process_returns a ->
  process_returns b ->
  requires_response m = true ->
  fst (start fuel w) = OutOfFuel /\
  exists t,
    trace (snd (start fuel w)) = trace w ++ t /\
    List.length (routes_of t) = fuel /\
    List.length (processed_of t) = fuel.
Proof.
  intros Hq Hok Ha Hb Pa Pb Hreq. unfold start. simpl.
  exact (@BounceFacts.bounce fuel (set_running true w) m a b
           Hq Hok eq_refl Ha Hb Pa Pb Hreq).
Qed.

Lemma answered_request_bounces_forever_witness :
  fst (start 40
         (snd (send_message
                 (Samples.msg "a" "b" (PyStr "hi") Samples.wants_reply)
                 (Samples.world_of [Samples.echo_agent "a" [];
                                    Samples.echo_agent "b" []]))))
  = OutOfFuel.
Proof.
  apply (fun h1 h2 h3 h4 h5 h6 h7 =>
           proj1 (@answered_request_bounces_forever
                    (snd (send_message
                            (Samples.msg "a" "b" (PyStr "hi")
                                         Samples.wants_reply)
                            (Samples.world_of [Samples.echo_agent "a" [];
                                               Samples.echo_agent "b" []])))
                    (Samples.msg "a" "b" (PyStr "hi") Samples.wants_reply)
                    (Samples.echo_agent "a" []) (Samples.echo_agent "b" []) 40
                    h1 h2 h3 h4 h5 h6 h7)).
  - reflexivity.
  - unfold queue_ok. simpl. lia.
  - reflexivity.
  - reflexivity.
  - intros st x. exists x. reflexivity.
  - intros st x. exists x. reflexivity.
  - reflexivity.
Defined.

(** X7. Traffic that cannot be answered for ever runs dry.  If for every
    pending message the sender or the receiver is not a registered name (as
    for a workflow submitted by a driver that is not an agent), and no
    [handle_error] raises, the loop goes idle within two iterations per
    pending message: it ends waiting on an empty queue. *)
Theorem one_way_traffic_drains (w : World) (fuel : nat) :
  queue_ok w ->
  handlers_return w ->
  (forall m, In m (pending (message_queue (self w))) -> one_way w m) ->
  2 * List.length (pending (message_queue (self w))) < fuel ->
  fst (start fuel w) = Blocked /\
  pending (message_queue (self (snd (start fuel w)))) = [].
Proof.
  intros Hok Hh Hone Hfuel. unfold start. simpl.
  assert (Hb : fst (loop_from_get fuel (set_running true w)) = Blocked).
  { destruct (@LoopInvariants.survives fuel (set_running true w) Hok Hh eq_refl)
      as [H|H]; [exact H|].
    exfalso. revert H.
    apply LoopInvariants.runs_dry; [exact Hok|exact Hone|].
    pose proof (LoopInvariants.hops_left_bound (set_running true w)) as Hb.
    simpl in Hb. lia. }
  split; [exact Hb|].
  destruct (@LoopFacts.loop_from_get_run fuel (set_running true w) Hok eq_refl)
    as [t [_ [_ [_ [_ [Kb _]]]]]].
  exact (Kb Hb).
Qed.

Lemma one_way_traffic_drains_witness :
  let ms := [Samples.msg "cli" "echo" (PyInt 1) Samples.wants_reply;
             Samples.msg "cli" "f" (PyInt 2) Samples.wants_reply;
             Samples.msg "cli" "gone" (PyInt 3) Samples.wants_reply] in
  let w := snd (send_all ms
                  (Samples.world_of [Samples.echo_agent "echo" ["echo"];
                                     Samples.failing_agent "f"])) in
  fst (start 7 w) = Blocked /\
  pending (message_queue (self (snd (start 7 w)))) = [].
Proof.
  intros ms w.
  apply (@one_way_traffic_drains w 7).
  - unfold queue_ok. simpl. lia.
  - intros k a. simpl.
    destruct (String.eqb k "echo"); [intros H; injection H as <-; easy|].
    destruct (String.eqb k "f"); [intros H; injection H as <-; easy|].
    discriminate.
  - intros m Hm. left. simpl in Hm.
    destruct Hm as [<-|[<-|[<-|[]]]]; reflexivity.
  - simpl. lia.
Defined.

(** X8. [stop] does not drain the queue.  When the loop resumes with the
    flag already false and messages pending, it still takes out and routes
    the first of them, and then ends; the others are left in the queue,
    never delivered. *)
Theorem stopped_loop_abandons_queue
    (w : World) (m : Message) (rest : list Message) (fuel : nat) :
  pending (message_queue (self w)) = m :: rest ->
  queue_ok w ->
  _running (self w) = false ->
  (fst (loop_from_get (S fuel) w) = Exited \/
   exists e, fst (loop_from_get (S fuel) w) = Crashed e) /\
  exists t,
    trace (snd (loop_from_get (S fuel) w)) = trace w ++ t /\
    gets_of t = [m] /\
    routes_of t = [m] /\
    pending (message_queue (self (snd (loop_from_get (S fuel) w))))
      = rest ++ puts_of t.
Proof.
  intros Hq Hok Hrun.
  rewrite (@LoopSteps.loop_step fuel w m rest Hq Hok).
  pose proof (LoopSteps.running_after_route w m rest) as Hrun2.
  destruct (LoopFacts.route_message_effect m (after_get m rest w))
    as [t1 [Ht [Hg [Hr [Hp _]]]]].
  destruct (route_message m (after_get m rest w)) as [[[]|e] w2];
    simpl in Hrun2, Ht, Hp.
  - rewrite Hrun2, Hrun. split; [now left|].
    exists (EvGet m :: EvRoute m :: t1). simpl.
    rewrite Ht, Hg, Hr, Hp, <- app_assoc. repeat split.
  - split; [right; now exists e|].
    exists (EvGet m :: EvRoute m :: t1). simpl.
    rewrite Ht, Hg, Hr, Hp, <- app_assoc. repeat split.
Qed.

Lemma stopped_loop_abandons_queue_witness :
  let m1 := Samples.msg "t" "echo" (PyInt 1) Samples.no_reply in
  let m2 := Samples.msg "t" "echo" (PyInt 2) Samples.no_reply in
  let w := snd (send_all [m1; m2]
                  (Samples.world_of [Samples.echo_agent "echo" ["echo"]])) in
  exists t,
    trace (snd (loop_from_get 5 w)) = trace w ++ t /\
    routes_of t = [m1] /\
    pending (message_queue (self (snd (loop_from_get 5 w)))) = [m2] ++ puts_of t.
Proof.
  intros m1 m2 w.
  destruct (@stopped_loop_abandons_queue w m1 [m2] 4) as [_ [t [H1 [_ [H3 H4]]]]].
  - reflexivity.
  - unfold queue_ok. simpl. lia.
  - reflexivity.
  - exists t. repeat split; assumption.
Defined.

Module TaskCount.

Lemma balance (fuel : nat) :
  forall w : World,
    balanced w ->
    _running (self w) = true ->
    (fst (loop_from_get fuel w) = Blocked ->
       unfinished_tasks (message_queue (self (snd (loop_from_get fuel w)))) = 0)
    /\
    (forall e, fst (loop_from_get fuel w) = Crashed e ->
       unfinished_tasks (message_queue (self (snd (loop_from_get fuel w))))
       = S (List.length
              (pending (message_queue (self (snd (loop_from_get fuel w))))))).
Proof.
  induction fuel as [|fuel IH]; intros w Hbal Hrun.
  - simpl. split; [discriminate|intros e; discriminate].
  - destruct (pending (message_queue (self w))) as [|m rest] eqn:Hq.
    + simpl. rewrite Hq. simpl. split.
      * intros _. unfold balanced in Hbal. now rewrite Hq in Hbal.
      * intros e; discriminate.
    + assert (Hok : queue_ok w)
        by (unfold queue_ok; unfold balanced in Hbal; lia).
      rewrite (@LoopSteps.loop_step fuel w m rest Hq Hok).
      pose proof (LoopSteps.running_after_route w m rest) as Hrun2.
      destruct (RouteFacts.queue_after_route (after_get m rest w) m)
        as [l [Hp [Hu _]]].
      unfold balanced in Hbal. rewrite Hq in Hbal. simpl in Hbal.
      destruct (route_message m (after_get m rest w)) as [[[]|e] w2];
        simpl in Hrun2, Hp, Hu.
      * rewrite Hrun2, Hrun. apply IH.
        -- unfold balanced. simpl. rewrite Hp, Hu, length_app. lia.
        -- simpl. now rewrite Hrun2.
      * simpl. split; [discriminate|]. intros e' _.
        rewrite Hp, Hu, length_app. lia.
Qed.

End TaskCount.

(** X9. The loop marks a task done for every message it routes to the end,
    and for no other.  On a queue that starts with as many unfinished tasks
    as pending messages, an idle loop leaves no unfinished task; but when
    an exception ends the loop, the message being routed is never marked
    done, and the count stays one above the pending messages. *)
Theorem task_done_matches_get (w : World) (fuel : nat) :
  balanced w ->
  (fst (start fuel w) = Blocked ->
     unfinished_tasks (message_queue (self (snd (start fuel w)))) = 0) /\
  (forall e, fst (start fuel w) = Crashed e ->
     unfinished_tasks (message_queue (self (snd (start fuel w))))
     = S (List.length (pending (message_queue (self (snd (start fuel w))))))).
Proof.
  intros Hbal. unfold start. simpl.
  exact (@TaskCount.balance fuel (set_running true w) Hbal eq_refl).
Qed.

Lemma task_done_matches_get_witness :
  let w := snd (send_all [Samples.msg "t" "b" PyNone Samples.no_reply;
                          Samples.msg "t" "b" PyNone Samples.no_reply]
                  (Samples.world_of [Samples.broken_agent "b"])) in
  unfinished_tasks (message_queue (self (snd (start 5 w)))) = 2 /\
  List.length (pending (message_queue (self (snd (start 5 w))))) = 1.
Proof.
  intros w.
  destruct (@task_done_matches_get w 5 eq_refl) as [_ H].
  split; [|reflexivity].
  exact (H Samples.bang eq_refl).
Defined.

(* ================================================================== *)
(** ** Further properties of the registry and its readers *)

Module ReaderFacts.
Import Dict DictFacts.

Lemma set_set_same V (k : string) (v : V) (d : dict V) :
  set k v (set k v d) = set k v d.
Proof.
  induction d as [|[k' v'] r IH]; simpl.
  - now rewrite String.eqb_refl.
  - destruct (String.eqb k k') eqn:E; simpl.
    + now rewrite String.eqb_refl.
    + now rewrite E, IH.
Qed.

Lemma capability_map_fresh (d : dict BaseAgent) (acc : dict (list string)) :
  NoDup (keys acc ++ keys d) ->
  capability_map d acc
  = acc ++ map (fun item => (fst item, get_capabilities (snd item))) d.
Proof.
  revert acc. induction d as [|[k a] r IH]; intros acc Hnd; simpl.
  - now rewrite app_nil_r.
  - assert (Hfresh : ~ In k (keys acc)).
    { intros Hin. apply NoDup_remove_2 in Hnd. apply Hnd.
      apply in_or_app. now left. }
    unfold capability_map in *. simpl.
    rewrite (@RegistryFacts.set_fresh _ k (get_capabilities a) acc Hfresh), IH.
    + now rewrite <- app_assoc.
    + unfold keys. rewrite map_app. simpl. rewrite <- app_assoc. exact Hnd.
Qed.

Lemma get_of_item V (d : dict V) (k : string) (v : V) :
  NoDup (keys d) -> In (k, v) d -> get k d = Some v.
Proof.
  induction d as [|[k' v'] r IH]; simpl; [intros _ []|].
  intros Hnd [Heq|Hin].
  - injection Heq as -> ->. now rewrite String.eqb_refl.
  - inversion Hnd as [|? ? Hnot Hr]; subst.
    destruct (String.eqb k k') eqn:E.
    + apply String.eqb_eq in E. subst. exfalso. apply Hnot.
      unfold keys. change k' with (fst (k', v)). now apply in_map.
    + now apply IH.
Qed.

(** Building the rows for items that resolve to themselves. *)
Lemma rows_of_items (w : World) (l : list (string * BaseAgent)) :
  (forall k a, In (k, a) l -> get k (agents (self w)) = Some a) ->
  map_m (fun item =>
           a <- getitem_agent (fst item) ;;
           ret [("name", PyStr (fst item));
                ("capabilities", py_strs (snd item));
                ("description", PyStr (description (config a)))])
        (map (fun item => (fst item, get_capabilities (snd item))) l) w
  = (Ok (map agent_row l), w).
Proof.
  induction l as [|[k a] l IH]; intros H; simpl.
  - reflexivity.
  - unfold bind at 1. unfold bind at 1. unfold getitem_agent at 1. simpl.
    rewrite (H k a) by now left. unfold ret at 1.
    unfold bind at 1. rewrite IH.
    + reflexivity.
    + intros k' a' Hin. apply H. now right.
Qed.

End ReaderFacts.

(** X10. [get_agent_capabilities] lists the registry as it stands: one
    entry for each registered name, in the order of the registry, holding
    what [get_capabilities] of the agent under that name returns; it
    changes nothing. *)
Theorem get_agent_capabilities_follows_registry (w : World) :
  NoDup (Dict.keys (agents (self w))) ->
  get_agent_capabilities w
  = (Ok (map (fun item => (fst item, get_capabilities (snd item)))
             (agents (self w))), w).
Proof.
  intros Hnd. unfold get_agent_capabilities, read, Dict.items.
  fold (capability_map (agents (self w)) Dict.empty).
  now rewrite (@ReaderFacts.capability_map_fresh (agents (self w)) Dict.empty Hnd).
Qed.

Lemma get_agent_capabilities_follows_registry_witness :
  fst (get_agent_capabilities
         (Samples.world_of [Samples.echo_agent "x" ["a"];
                            Samples.echo_agent "y" ["t"];
                            Samples.echo_agent "x" ["t"; "u"]]))
  = Ok [("x", ["t"; "u"]); ("y", ["t"])].
Proof.
  rewrite get_agent_capabilities_follows_registry; [reflexivity|].
  simpl. repeat constructor; simpl; intuition discriminate.
Defined.

(** X11. What [delegate_task] returns is a registered agent whose
    capabilities contain [task_type], spelled exactly so; and it returns
    [None] only when no registered agent has that capability.  It never
    raises. *)
Theorem delegate_task_returns_capable_agent
    (w : World) (task : PyVal) (task_type : string) :
  match fst (delegate_task task task_type w) with
  | Ok (Some a) =>
      (exists k, In (k, a) (Dict.items (agents (self w)))) /\
      In task_type (get_capabilities a)
  | Ok None =>
      forall k a, In (k, a) (Dict.items (agents (self w))) ->
                  ~ In task_type (get_capabilities a)
  | Raise _ => False
  end.
Proof.
  unfold delegate_task, read, Dict.values, Dict.items. simpl.
  destruct (find (fun agent => str_in task_type (get_capabilities agent))
                 (map snd (agents (self w)))) as [a|] eqn:Hf.
  - apply find_some in Hf. destruct Hf as [Hin Hcap]. split.
    + apply in_map_iff in Hin. destruct Hin as [[k a'] [Heq Hin]].
      simpl in Heq. subst a'. now exists k.
    + now apply DictFacts.str_in_In.
  - intros k a Hin Hcap.
    pose proof (find_none _ _ Hf a) as Hn.
    assert (Ha : In a (map snd (agents (self w))))
      by (change a with (snd (k, a)); now apply in_map).
    specialize (Hn Ha). simpl in Hn.
    apply DictFacts.str_in_In in Hcap. congruence.
Qed.

(** X12. Registering an agent touches one name only.  The agent is found
    under its name; every other name resolves as before; the names already
    present keep their order and a new name goes to the end; the queue, the
    flag and the log are untouched; and registering the same agent again
    changes nothing. *)
Theorem register_agent_touches_one_name (w : World) (a : BaseAgent) :
  let w' := snd (register_agent a w) in
  fst (register_agent a w) = Ok tt /\
  Dict.get (agent_name a) (agents (self w')) = Some a /\
  (forall k, String.eqb k (agent_name a) = false ->
     Dict.get k (agents (self w')) = Dict.get k (agents (self w))) /\
  Dict.keys (agents (self w'))
    = (if Dict.contains (agent_name a) (agents (self w))
       then Dict.keys (agents (self w))
       else Dict.keys (agents (self w)) ++ [agent_name a]) /\
  message_queue (self w') = message_queue (self w) /\
  _running (self w') = _running (self w) /\
  trace w' = trace w /\
  snd (register_agent a w') = w'.
Proof.
  unfold register_agent, modify. simpl. fold (agent_name a).
  split; [reflexivity|]. split; [apply DictFacts.get_set_same|].
  split; [intros k Hk; now apply DictFacts.get_set_other|].
  split; [apply DictFacts.keys_set|].
  repeat split. unfold set_agents. simpl.
  now rewrite ReaderFacts.set_set_same.
Qed.

(** X13. The agent listing of the drivers ([list_agents] of the command
    line, [get_agents] of the web front end) has one row for each
    registered name, in registry order, with the capabilities and the
    description of the agent registered under it; the lookup
    [coordinator.agents[name]] in it never fails. *)
Theorem agents_data_lists_every_agent (w : World) :
  NoDup (Dict.keys (agents (self w))) ->
  agents_data w = (Ok (map agent_row (agents (self w))), w).
Proof.
  intros Hnd. unfold agents_data. unfold bind at 1.
  unfold get_agent_capabilities, read, Dict.items.
  fold (capability_map (agents (self w)) Dict.empty).
  rewrite (@ReaderFacts.capability_map_fresh (agents (self w)) Dict.empty Hnd).
  simpl. apply ReaderFacts.rows_of_items.
  intros k a Hin. now apply ReaderFacts.get_of_item.
Qed.

Lemma agents_data_lists_every_agent_witness :
  fst (agents_data
         (Samples.world_of [Samples.echo_agent "up" ["uptime"];
                            Samples.echo_agent "echo" ["echo"]]))
  = Ok [ [("name", PyStr "up"); ("capabilities", PyList [PyStr "uptime"]);
          ("description", PyStr "echo")];
         [("name", PyStr "echo"); ("capabilities", PyList [PyStr "echo"]);
          ("description", PyStr "echo")] ].
Proof.
  rewrite agents_data_lists_every_agent; [reflexivity|].
  simpl. repeat constructor; simpl; intuition discriminate.
Defined.

(** X14. [execute] does not use up the steps: executing the same workflow
    again sends every step again, behind the first round, and returns the
    same [results]. *)
Theorem execute_again_sends_again (wf : Workflow) (w : World) :
  let w1 := snd (execute wf w) in
  let w2 := snd (execute wf w1) in
  fst (execute wf w1) = Ok (results wf) /\
  pending (message_queue (self w2))
    = pending (message_queue (self w)) ++ steps wf ++ steps wf /\
  puts_of (trace w2) = puts_of (trace w) ++ steps wf ++ steps wf.
Proof.
  unfold execute, bind.
  destruct (for_each_send (steps wf) w) as [w1 [H1 [H2 [_ [H4 _]]]]].
  rewrite H1. cbn [snd ret].
  destruct (for_each_send (steps wf) w1) as [w2 [K1 [K2 [_ [K4 _]]]]].
  rewrite K1. cbn [fst snd ret].
  assert (P : forall ms, puts_of (map EvPut ms) = ms).
  { induction ms as [|m ms IH]; simpl; auto. now rewrite IH. }
  split; [reflexivity|]. split.
  - now rewrite K2, H2, <- app_assoc.
  - now rewrite K4, H4, !puts_of_app, !P, <- app_assoc.
Qed.

(* ================================================================== *)
(** ** Who gets to process what *)

Module DeliveryFacts.

Lemma processed_after_route (w : World) (m : Message) :
  processed_of (trace (snd (route_message m w)))
  = processed_of (trace w)
    ++ (if Dict.contains (receiver m) (agents (self w))
        then [(receiver m, content m)] else []).
Proof.
  unfold Dict.contains.
  destruct (Dict.get (receiver m) (agents (self w))) as [obj|] eqn:Hget.
  - rewrite (route_message_registered _ _ Hget).
    destruct (process_method obj (config obj) (attrs obj) (content m))
      as [[result|e] s1].
    + destruct (truthy _); simpl;
        rewrite !BounceFacts.processed_of_app; simpl;
        now rewrite ?app_nil_r.
    + destruct (handle_error_method obj (config obj) s1 e) as [r s2]. simpl.
      rewrite !BounceFacts.processed_of_app. simpl. now rewrite ?app_nil_r.
  - run_route. rewrite Hget. simpl.
    rewrite !BounceFacts.processed_of_app. simpl. now rewrite ?app_nil_r.
Qed.

Lemma running_kept (fuel : nat) :
  forall w : World,
    _running (self (snd (loop_from_get fuel w))) = _running (self w).
Proof.
  induction fuel as [|fuel IH]; intros w; simpl; [reflexivity|].
  destruct (pending (message_queue (self w))) as [|m rest]; [reflexivity|].
  fold (after_get m rest w).
  pose proof (LoopSteps.running_after_route w m rest) as Hr.
  destruct (route_message m (after_get m rest w)) as [[[]|e] w2];
    simpl in Hr; [|exact Hr].
  destruct (Queue_task_done (message_queue (self w2))); [|exact Hr].
  simpl. destruct (_running (self w2)) eqn:E.
  - rewrite IH. simpl. congruence.
  - simpl. congruence.
Qed.

(** When one-way traffic has run dry, each message with a registered
    receiver was processed once, in queue order, and nothing else was. *)
Lemma deliveries (fuel : nat) :
  forall w : World,
    queue_ok w ->
    _running (self w) = true ->
    (forall m, In m (pending (message_queue (self w))) -> one_way w m) ->
    fst (loop_from_get fuel w) = Blocked ->
    processed_of (trace (snd (loop_from_get fuel w)))
    = processed_of (trace w)
      ++ map (fun m => (receiver m, content m))
             (filter (fun m => Dict.contains (receiver m) (agents (self w)))
                     (pending (message_queue (self w)))).
Proof.
  induction fuel as [|fuel IH]; intros w Hok Hrun Hone Hb;
    [discriminate|].
  destruct (pending (message_queue (self w))) as [|m rest] eqn:Hq.
  - simpl. rewrite Hq. simpl. now rewrite app_nil_r.
  - revert Hb. rewrite (@LoopSteps.loop_step fuel w m rest Hq Hok).
    pose proof (@LoopSteps.queue_ok_after_iteration w m rest Hq Hok) as Hok2.
    pose proof (LoopInvariants.contains_after_iteration w m rest) as Hc.
    pose proof (LoopSteps.running_after_route w m rest) as Hrun2.
    pose proof (processed_after_route (after_get m rest w) m) as Hpr.
    destruct (RouteFacts.queue_after_route (after_get m rest w) m)
      as [l [Hp [_ [_ Hl]]]].
    destruct (route_message m (after_get m rest w)) as [[[]|e] w2];
      [|discriminate].
    simpl in Hok2, Hc, Hrun2, Hpr, Hp, Hl.
    rewrite Hrun2, Hrun. intros Hb.
    assert (Hm : one_way w m) by (apply Hone; now left).
    assert (Hl' : filter (fun x => Dict.contains (receiver x) (agents (self w)))
                         l = []).
    { destruct Hl as [->|[result [-> Hreg]]]; [reflexivity|]. simpl.
      destruct Hm as [Hm|Hm]; [now rewrite Hm|congruence]. }
    rewrite IH; [| exact Hok2 | simpl; now rewrite Hrun2 | | exact Hb].
    + simpl. rewrite Hp, BounceFacts.processed_of_app in *. simpl in Hpr.
      rewrite app_nil_r in Hpr. rewrite Hpr.
      rewrite (filter_ext _ _ (fun x => Hc (receiver x))).
      rewrite filter_app, Hl', app_nil_r, <- app_assoc.
      now destruct (Dict.contains (receiver m) (agents (self w))).
    + intros x Hx. simpl in Hx. rewrite Hp in Hx.
      assert (Hx' : one_way w x).
      { apply in_app_or in Hx. destruct Hx as [Hx|Hx].
        - apply Hone. now right.
        - destruct Hl as [->|[result [-> Hreg]]]; [contradiction|].
          destruct Hx as [<-|[]]. right. simpl.
          destruct Hm as [Hm|Hm]; [exact Hm|congruence]. }
      destruct Hx' as [Hx'|Hx']; [left|right];
        unfold after_task_done; simpl; rewrite <- Hx';
        apply (Hc (sender x)) || apply (Hc (receiver x)).
Qed.

End DeliveryFacts.

(** X15. One-way traffic is delivered once each.  If for every pending
    message the sender or the receiver is not a registered name and no
    [handle_error] raises, then by the time the loop goes idle each pending
    message with a registered receiver has been handed to [process] of that
    receiver exactly once, with its content, in queue order, and no reply
    has been handed to anyone. *)
Theorem one_way_traffic_is_processed_once (w : World) (fuel : nat) :
  queue_ok w ->
  handlers_return w ->
  (forall m, In m (pending (message_queue (self w))) -> one_way w m) ->
  2 * List.length (pending (message_queue (self w))) < fuel ->
  processed_of (trace (snd (start fuel w)))
  = processed_of (trace w)
    ++ map (fun m => (receiver m, content m))
           (filter (fun m => Dict.contains (receiver m) (agents (self w)))
                   (pending (message_queue (self w)))).
Proof.
  intros Hok Hh Hone Hfuel. unfold start. simpl.
  apply (@DeliveryFacts.deliveries fuel (set_running true w) Hok eq_refl Hone).
  destruct (@LoopInvariants.survives fuel (set_running true w) Hok Hh eq_refl)
    as [H|H]; [exact H|].
  exfalso. revert H.
  apply LoopInvariants.runs_dry; [exact Hok|exact Hone|].
  pose proof (LoopInvariants.hops_left_bound (set_running true w)) as Hb.
  simpl in Hb. lia.
Qed.

Lemma one_way_traffic_is_processed_once_witness :
  let ms := [Samples.msg "cli" "echo" (PyInt 1) Samples.wants_reply;
             Samples.msg "cli" "gone" (PyInt 2) Samples.wants_reply;
             Samples.msg "cli" "f" (PyInt 3) Samples.wants_reply] in
  let w := snd (send_all ms
                  (Samples.world_of [Samples.echo_agent "echo" ["echo"];
                                     Samples.failing_agent "f"])) in
  processed_of (trace (snd (start 7 w))) = [("echo", PyInt 1); ("f", PyInt 3)].
Proof.
  intros ms w.
  rewrite (@one_way_traffic_is_processed_once w 7).
  - reflexivity.
  - unfold queue_ok. simpl. lia.
  - intros k a. simpl.
    destruct (String.eqb k "echo"); [intros H; injection H as <-; easy|].
    destruct (String.eqb k "f"); [intros H; injection H as <-; easy|].
    discriminate.
  - intros m Hm. left. simpl in Hm.
    destruct Hm as [<-|[<-|[<-|[]]]]; reflexivity.
  - simpl. lia.
Defined.

(* ================================================================== *)
(** ** The command line driver *)

(** X16. [run] of the command line never gets its loop to stop.  The loop
    has its first turn only after [coordinator.stop()], and [start] sets
    the flag again; so with a sender that is no registered agent and
    handlers that return, the loop hands every step with a registered
    receiver to its agent once, in order, and then waits on the empty queue
    with the flag still true: [await coordinator_task] does not return. *)
Theorem cli_run_waits_forever (msgs : list Message) (fuel : nat) (w : World) :
  pending (message_queue (self w)) = [] ->
  handlers_return w ->
  (forall m, In m msgs -> Dict.contains (sender m) (agents (self w)) = false) ->
  2 * List.length msgs < fuel ->
  fst (cli_execute_workflow msgs fuel w) = Blocked /\
  _running (self (snd (cli_execute_workflow msgs fuel w))) = true /\
  processed_of (trace (snd (cli_execute_workflow msgs fuel w)))
  = processed_of (trace w)
    ++ map (fun m => (receiver m, content m))
           (filter (fun m => Dict.contains (receiver m) (agents (self w)))
                   msgs).
Proof.
  intros Hempty Hh Hsend Hfuel.
  unfold cli_execute_workflow, execute, bind.
  destruct (steps_workflow_of msgs) as [Hs _]. rewrite Hs.
  destruct (for_each_send msgs w) as [w1 [H1 [H2 [H3 [H4 [H5 _]]]]]].
  rewrite H1. cbn [snd ret stop modify]. unfold start. cbn [snd].
  rewrite Hempty in H2. simpl in H2.
  set (W := set_running true (set_running false w1)).
  assert (HW : _running (self W) = true) by reflexivity.
  change (if _running (self W) then loop_from_get fuel W else (Exited, W))
    with (loop_from_get fuel W).
  assert (Hag : agents (self W) = agents (self w)) by exact H5.
  assert (Hpe : pending (message_queue (self W)) = msgs) by exact H2.
  assert (Hok : queue_ok W).
  { unfold queue_ok. simpl. rewrite H2, H3. lia. }
  assert (HhW : handlers_return W).
  { intros k a. rewrite Hag. apply Hh. }
  assert (Hone : forall m, In m (pending (message_queue (self W))) ->
                           one_way W m).
  { intros m Hm. left. rewrite Hag. apply Hsend. now rewrite <- Hpe. }
  assert (Hb : fst (loop_from_get fuel W) = Blocked).
  { destruct (@LoopInvariants.survives fuel W Hok HhW HW) as [H|H];
      [exact H|].
    exfalso. revert H.
    apply LoopInvariants.runs_dry; [exact Hok|exact Hone|].
    pose proof (LoopInvariants.hops_left_bound W) as Hbd.
    rewrite Hpe in Hbd. lia. }
  split; [exact Hb|]. split.
  - now rewrite DeliveryFacts.running_kept.
  - rewrite (@DeliveryFacts.deliveries fuel W Hok HW Hone Hb), Hag, Hpe.
    f_equal. change (trace W) with (trace w1).
    rewrite H4, BounceFacts.processed_of_app.
    assert (P : forall ms, processed_of (map EvPut ms) = []).
    { induction ms as [|m ms IH]; simpl; auto. }
    now rewrite P, app_nil_r.
Qed.

Lemma cli_run_waits_forever_witness :
  let msgs := [ {| sender := "cli"; receiver := "echo"; content := PyStr "a";
                   message_type := "process";
                   context := [("requires_response", PyBool true)] |};
                {| sender := "cli"; receiver := "f"; content := PyStr "b";
                   message_type := "process";
                   context := [("requires_response", PyBool true)] |} ] in
  let w := Samples.world_of [Samples.echo_agent "echo" ["echo"];
                             Samples.failing_agent "f"] in
  fst (cli_execute_workflow msgs 5 w) = Blocked /\
  _running (self (snd (cli_execute_workflow msgs 5 w))) = true.
Proof.
  intros msgs w.
  destruct (@cli_run_waits_forever msgs 5 w) as [H1 [H2 _]].
  - reflexivity.
  - intros k a. simpl.
    destruct (String.eqb k "echo"); [intros H; injection H as <-; easy|].
    destruct (String.eqb k "f"); [intros H; injection H as <-; easy|].
    discriminate.
  - intros m Hm. simpl in Hm. destruct Hm as [<-|[<-|[]]]; reflexivity.
  - simpl. lia.
  - split; assumption.
Defined.
